(** * Epoch and shard bookkeeping of the DALI base iterator

    A shallow embedding of [_DaliBaseIterator]
    (dali/python/nvidia/dali/plugin/base_iterator.py) and the properties
    of its constructor, [_check_stop], [_remove_padded] and [reset].

    Modelling conventions.
    - Python integers are [Z].  The numpy arrays of the class hold
      int64 and its divisions go through float64
      ([np.floor (a / b)], [math.ceil (a / b)]); both are exact for
      operands below 2^53, which is the range of sample counts, so
      arrays are [list Z] and the rounded divisions are the exact floor
      and ceiling of the quotient.
    - The iterator object is a record; a method is a function in a small
      state-and-exception monad over that record, so that what a method
      has already written stays written when it raises.
    - The wrapped pipelines are opaque collaborators: a pipeline is its
      [batch_size], the answer of [reader_meta] and the answer of
      [empty]; every call made to a pipeline and every warning is
      appended to the [trace] of the object. *)

From Stdlib Require Import String.
From Stdlib Require Import ZArith List Bool Lia Permutation.
Import ListNotations.
Open Scope Z_scope.

(** ** Exceptions and results *)

Inductive exn : Type :=
| AssertionError (msg : option string)
| StopIteration
| ZeroDivisionError
| ValueError
| OverflowError
| IndexError
| AttributeError.

Inductive res (A : Type) : Type :=
| Ok (a : A)
| Raise (e : exn).
Arguments Ok {A} a.
Arguments Raise {A} e.

Definition rbind {A B} (r : res A) (k : A -> res B) : res B :=
  match r with
  | Ok a => k a
  | Raise e => Raise e
  end.

Notation "'let?' x ':=' r 'in' k" := (rbind r (fun x => k))
  (at level 10, x pattern, r at level 100, k at level 200).

Definition assert (c : bool) (msg : option string) : res unit :=
  if c then Ok tt else Raise (AssertionError msg).

(** ** The numpy and builtin operations the class uses *)

Module Np.

(** [np.zeros(n)]: refuses a negative dimension. *)
Definition zeros (n : Z) : res (list Z) :=
  if n <? 0 then Raise ValueError else Ok (repeat 0 (Z.to_nat n)).

(** [np.arange(0, n)]. *)
Definition arange (n : Z) : list Z := map Z.of_nat (seq 0 (Z.to_nat n)).

(** [np.roll(a, 1)]: the last element comes first. *)
Definition roll (a : list Z) : list Z :=
  match rev a with
  | [] => []
  | x :: r => x :: rev r
  end.

Definition map2 (f : Z -> Z -> Z) (a b : list Z) : list Z :=
  map (fun p => f (fst p) (snd p)) (combine a b).

(** An elementwise operation on two arrays, with numpy's broadcasting
    of an array of length one. *)
Definition broadcast (f : Z -> Z -> Z) (a b : list Z) : res (list Z) :=
  if (length a =? length b)%nat then Ok (map2 f a b)
  else match a, b with
       | [x], _ => Ok (map (f x) b)
       | _, [y] => Ok (map (fun x => f x y) a)
       | _, _ => Raise ValueError
       end.

(** [a % n] on an integer array: the sign of the divisor, and 0 (with a
    warning) for a zero divisor. *)
Definition mod_scalar (a : list Z) (n : Z) : list Z :=
  map (fun x => if n =? 0 then 0 else x mod n) a.

(** [a[i]] for one index: negative indices count from the end. *)
Definition item (a : list Z) (i : Z) : res Z :=
  let n := Z.of_nat (length a) in
  if (0 <=? i) && (i <? n) then Ok (nth (Z.to_nat i) a 0)
  else if (- n <=? i) && (i <? 0) then Ok (nth (Z.to_nat (n + i)) a 0)
  else Raise IndexError.

(** [a[idx]] for an index array. *)
Fixpoint take (a : list Z) (idx : list Z) : res (list Z) :=
  match idx with
  | [] => Ok []
  | i :: r =>
      let? x := item a i in
      let? xs := take a r in
      Ok (x :: xs)
  end.

End Np.

(** Builtin [min] and [max] of a sequence: [ValueError] when it is empty. *)
Definition py_min (l : list Z) : res Z :=
  match l with
  | [] => Raise ValueError
  | x :: r => Ok (fold_left Z.min r x)
  end.

Definition py_max (l : list Z) : res Z :=
  match l with
  | [] => Raise ValueError
  | x :: r => Ok (fold_left Z.max r x)
  end.

(** [a // b] and [a % b] on Python integers. *)
Definition py_floordiv (a b : Z) : res Z :=
  if b =? 0 then Raise ZeroDivisionError else Ok (a / b).

Definition py_mod (a b : Z) : res Z :=
  if b =? 0 then Raise ZeroDivisionError else Ok (a mod b).

(** The ceiling of the quotient a / b, for b <> 0 of either sign. *)
Definition ceil_quot (a b : Z) : Z := - ((- a) / b).

(** [math.ceil(a / b)] on Python integers. *)
Definition py_ceil_div (a b : Z) : res Z :=
  if b =? 0 then Raise ZeroDivisionError else Ok (ceil_quot a b).

(** [math.ceil(m / b)] where [m] is a numpy integer: a zero divisor gives
    nan or inf, which [math.ceil] refuses. *)
Definition np_ceil_div (m b : Z) : res Z :=
  if b =? 0 then (if m =? 0 then Raise ValueError else Raise OverflowError)
  else Ok (ceil_quot m b).

(** Truth value of an optional string ([None] and the empty string are
    false). *)
Definition truthy (s : option string) : bool :=
  match s with
  | None => false
  | Some s => negb (String.eqb s EmptyString)
  end.

(** ** Collaborators *)

Record ReaderMeta : Type := {
  epoch_size : Z;
  epoch_size_padded : Z;
  number_of_shards : Z;
  shard_id : Z;
  pad_last_batch : bool;
  stick_to_shard : bool
}.

Record Pipeline : Type := {
  p_batch_size : Z;
  reader_meta : string -> ReaderMeta;
  (** what [empty()] answers after [reset()] *)
  p_empty : bool
}.

Inductive event : Type :=
| EvBuild (i : nat)
| EvReset (i : nat)
| EvEmpty (i : nat)
| EvScheduleRun (i : nat)
| EvDeprecationWarning
| EvLoggingWarning.

(** ** The iterator object *)

(** The attributes that exist only when [reader_name] is given. *)
Record ReaderAttrs : Type := {
  _size_no_pad : Z;
  _shards_num : Z;
  _is_stick_to_shard : bool;
  _shards_id : list Z;
  _counter_per_gpu : list Z;
  _shard_sizes_per_gpu : list Z;
  _shard_sizes_per_gpu_initial : list Z
}.

Record Iter : Type := {
  _num_gpus : nat;
  batch_size : Z;
  _size : Z;
  _auto_reset : bool;
  _fill_last_batch : bool;
  _last_batch_padded : bool;
  _pipes : list Pipeline;
  _counter : Z;
  _reader_name : option string;
  _reader : option ReaderAttrs;
  trace : list event
}.

Definition with_shards_id (v : list Z) (r : ReaderAttrs) : ReaderAttrs :=
  {| _size_no_pad := _size_no_pad r; _shards_num := _shards_num r;
     _is_stick_to_shard := _is_stick_to_shard r; _shards_id := v;
     _counter_per_gpu := _counter_per_gpu r;
     _shard_sizes_per_gpu := _shard_sizes_per_gpu r;
     _shard_sizes_per_gpu_initial := _shard_sizes_per_gpu_initial r |}.

Definition with_counter_per_gpu (v : list Z) (r : ReaderAttrs) : ReaderAttrs :=
  {| _size_no_pad := _size_no_pad r; _shards_num := _shards_num r;
     _is_stick_to_shard := _is_stick_to_shard r; _shards_id := _shards_id r;
     _counter_per_gpu := v;
     _shard_sizes_per_gpu := _shard_sizes_per_gpu r;
     _shard_sizes_per_gpu_initial := _shard_sizes_per_gpu_initial r |}.

Definition with_shard_sizes_per_gpu (v : list Z) (r : ReaderAttrs) : ReaderAttrs :=
  {| _size_no_pad := _size_no_pad r; _shards_num := _shards_num r;
     _is_stick_to_shard := _is_stick_to_shard r; _shards_id := _shards_id r;
     _counter_per_gpu := _counter_per_gpu r;
     _shard_sizes_per_gpu := v;
     _shard_sizes_per_gpu_initial := _shard_sizes_per_gpu_initial r |}.

Definition with_counter (v : Z) (s : Iter) : Iter :=
  {| _num_gpus := _num_gpus s; batch_size := batch_size s; _size := _size s;
     _auto_reset := _auto_reset s; _fill_last_batch := _fill_last_batch s;
     _last_batch_padded := _last_batch_padded s; _pipes := _pipes s;
     _counter := v; _reader_name := _reader_name s; _reader := _reader s;
     trace := trace s |}.

Definition with_size (v : Z) (s : Iter) : Iter :=
  {| _num_gpus := _num_gpus s; batch_size := batch_size s; _size := v;
     _auto_reset := _auto_reset s; _fill_last_batch := _fill_last_batch s;
     _last_batch_padded := _last_batch_padded s; _pipes := _pipes s;
     _counter := _counter s; _reader_name := _reader_name s;
     _reader := _reader s; trace := trace s |}.

Definition with_last_batch_padded (v : bool) (s : Iter) : Iter :=
  {| _num_gpus := _num_gpus s; batch_size := batch_size s; _size := _size s;
     _auto_reset := _auto_reset s; _fill_last_batch := _fill_last_batch s;
     _last_batch_padded := v; _pipes := _pipes s;
     _counter := _counter s; _reader_name := _reader_name s;
     _reader := _reader s; trace := trace s |}.

Definition with_reader (v : option ReaderAttrs) (s : Iter) : Iter :=
  {| _num_gpus := _num_gpus s; batch_size := batch_size s; _size := _size s;
     _auto_reset := _auto_reset s; _fill_last_batch := _fill_last_batch s;
     _last_batch_padded := _last_batch_padded s; _pipes := _pipes s;
     _counter := _counter s; _reader_name := _reader_name s; _reader := v;
     trace := trace s |}.

Definition with_trace (v : list event) (s : Iter) : Iter :=
  {| _num_gpus := _num_gpus s; batch_size := batch_size s; _size := _size s;
     _auto_reset := _auto_reset s; _fill_last_batch := _fill_last_batch s;
     _last_batch_padded := _last_batch_padded s; _pipes := _pipes s;
     _counter := _counter s; _reader_name := _reader_name s;
     _reader := _reader s; trace := v |}.

(** ** Methods: a state-and-exception monad over the object *)

Definition M (A : Type) : Type := Iter -> res A * Iter.

Definition ret {A} (a : A) : M A := fun s => (Ok a, s).

Definition bind {A B} (m : M A) (k : A -> M B) : M B :=
  fun s =>
    match m s with
    | (Ok a, s') => k a s'
    | (Raise e, s') => (Raise e, s')
    end.

Definition raise {A} (e : exn) : M A := fun s => (Raise e, s).

Definition lift {A} (r : res A) : M A := fun s => (r, s).

(** Read an attribute of the object. *)
Definition getf {A} (f : Iter -> A) : M A := fun s => (Ok (f s), s).

(** Write the object. *)
Definition modify (f : Iter -> Iter) : M unit := fun s => (Ok tt, f s).

(** Read an attribute that the reader set up; it is missing otherwise. *)
Definition rd {A} (f : ReaderAttrs -> A) : M A :=
  fun s =>
    match _reader s with
    | Some r => (Ok (f r), s)
    | None => (Raise AttributeError, s)
    end.

(** Write an attribute of the reader set-up.  Every write of the class
    comes after a read of these attributes, which has raised
    [AttributeError] when they are missing. *)
Definition wr (f : ReaderAttrs -> ReaderAttrs) : M unit :=
  fun s =>
    match _reader s with
    | Some r => (Ok tt, with_reader (Some (f r)) s)
    | None => (Ok tt, s)
    end.

Definition emit (e : event) : M unit :=
  modify (fun s => with_trace (trace s ++ [e]) s).

Notation "x <- m ;; k" := (bind m (fun x => k))
  (at level 61, m at next level, right associativity).
Notation "m ;; k" := (bind m (fun _ => k))
  (at level 61, right associativity).

Definition when (c : bool) (m : M unit) : M unit := if c then m else ret tt.

(** ** Construction *)

(** [_calculate_shard_sizes]: the size of every shard in [shard_nums]. *)
Definition _calculate_shard_sizes (size_no_pad shards_num : Z)
    (shard_nums : list Z) : list Z :=
  let shards_beg := map (fun i => i * size_no_pad / shards_num) shard_nums in
  let shards_end :=
    map (fun i => (i + 1) * size_no_pad / shards_num) shard_nums in
  Np.map2 Z.sub shards_end shards_beg.

Definition first_meta (input_meta : list ReaderMeta) : res ReaderMeta :=
  match input_meta with
  | [] => Raise IndexError
  | m :: _ => Ok m
  end.

(** [err_msg_gen] builds the message and does not return it: the
    assertions of the two checks carry no message. *)
Definition err_msg_gen (err_msg : string) : option string := None.

Definition check_equality_and_get (input_meta : list ReaderMeta)
    (name : ReaderMeta -> Z) (err_msg : string) : res Z :=
  let? m0 := first_meta input_meta in
  let? _ := assert (forallb (fun m => name m =? name m0) input_meta)
                   (err_msg_gen err_msg) in
  Ok (name m0).

Definition check_all_or_none_and_get (readers_meta input_meta : list ReaderMeta)
    (name : ReaderMeta -> bool) (err_msg : string) : res bool :=
  let? _ := assert (forallb name readers_meta || negb (existsb name readers_meta))
                   (err_msg_gen err_msg) in
  let? m0 := first_meta input_meta in
  Ok (name m0).

Definition _extract_from_reader_and_validate (self : Iter) : res Iter :=
  match _reader_name self with
  | Some name =>
      if truthy (_reader_name self) then
        let readers_meta := map (fun p => reader_meta p name) (_pipes self) in
        let? size_no_pad :=
          check_equality_and_get readers_meta epoch_size "size value" in
        let? shards_num :=
          check_equality_and_get readers_meta number_of_shards
            "`num_shards` argument set" in
        let? last_batch_padded :=
          check_all_or_none_and_get readers_meta readers_meta pad_last_batch
            "`pad_last_batch` argument set" in
        let? is_stick_to_shard :=
          check_all_or_none_and_get readers_meta readers_meta stick_to_shard
            "`stick_to_shard` argument set" in
        let shards_id := map shard_id readers_meta in
        let? size :=
          if last_batch_padded then
            let? m0 := first_meta readers_meta in
            py_floordiv (epoch_size_padded m0) shards_num
          else
            let? per_shard := py_ceil_div size_no_pad shards_num in
            let? batches := py_ceil_div per_shard (batch_size self) in
            Ok (batches * batch_size self) in
        let? counter_per_gpu := Np.zeros shards_num in
        let shard_sizes_per_gpu :=
          _calculate_shard_sizes size_no_pad shards_num (Np.arange shards_num) in
        Ok (with_reader
              (Some {| _size_no_pad := size_no_pad;
                       _shards_num := shards_num;
                       _is_stick_to_shard := is_stick_to_shard;
                       _shards_id := shards_id;
                       _counter_per_gpu := counter_per_gpu;
                       _shard_sizes_per_gpu := shard_sizes_per_gpu;
                       _shard_sizes_per_gpu_initial := shard_sizes_per_gpu |})
              (with_size size (with_last_batch_padded last_batch_padded self)))
      else Ok self
  | None => Ok self
  end.

Definition __init__ (pipelines : list Pipeline) (size : Z)
    (reader_name : option string)
    (auto_reset fill_last_batch last_batch_padded : bool) : res Iter :=
  let? p0 := match pipelines with
             | [] => Raise IndexError
             | p :: _ => Ok p
             end in
  let bs := p_batch_size p0 in
  let? _ := assert (forallb (fun p => p_batch_size p =? bs) pipelines)
              (Some "All pipelines should have the same batch size set"%string) in
  let? _ := assert (negb (size =? 0)) (Some "Size cannot be 0"%string) in
  let? _ := assert ((0 <? size)
                    || ((size <? 0)
                        && ((length pipelines =? 1)%nat || truthy reader_name)))
              (Some "Negative size is supported only for a single pipeline"%string) in
  let? _ := assert (negb (truthy reader_name)
                    || (truthy reader_name && (size <? 0)))
              (Some "When reader_name is provided, size should not be set"%string) in
  let? _ := assert (negb (truthy reader_name)
                    || (truthy reader_name && negb last_batch_padded))
              (Some "When reader_name is provided, last_batch_padded should not be set"%string) in
  let unsized := (size <? 0) && negb (truthy reader_name) in
  let warned := (0 <? size) && negb (truthy reader_name) in
  _extract_from_reader_and_validate
    {| _num_gpus := length pipelines;
       batch_size := bs;
       _size := size;
       _auto_reset := if unsized then false else auto_reset;
       _fill_last_batch := if unsized then false else fill_last_batch;
       _last_batch_padded := if unsized then false else last_batch_padded;
       _pipes := pipelines;
       _counter := 0;
       _reader_name := reader_name;
       _reader := None;
       trace := (if warned then [EvDeprecationWarning] else [])
                  ++ map EvBuild (seq 0 (length pipelines)) |}.

(** ** Methods *)

(** The loop at the end of [reset]: every pipeline is reset, and run
    again when it reports an empty queue. *)
Fixpoint reset_pipes (i : nat) (pipes : list Pipeline) : M unit :=
  match pipes with
  | [] => ret tt
  | p :: rest =>
      emit (EvReset i) ;;
      emit (EvEmpty i) ;;
      when (p_empty p) (emit (EvScheduleRun i)) ;;
      reset_pipes (S i) rest
  end.

(** First block of [reset]: where the counter of the next epoch starts. *)
Definition reset_counter : M unit :=
  fill <- getf _fill_last_batch ;;
  padded <- getf _last_batch_padded ;;
  if fill && negb padded then
    name <- getf _reader_name ;;
    if truthy name then
      cpg <- rd _counter_per_gpu ;;
      m <- lift (py_min cpg) ;;
      modify (fun s => with_counter (_counter s - m) s) ;;
      cpg <- rd _counter_per_gpu ;;
      c <- getf _counter ;;
      wr (with_counter_per_gpu (map (fun x => x + c) cpg)) ;;
      cpg <- rd _counter_per_gpu ;;
      sizes <- rd _shard_sizes_per_gpu ;;
      cpg' <- lift (Np.broadcast Z.sub cpg sizes) ;;
      wr (with_counter_per_gpu cpg') ;;
      cpg <- rd _counter_per_gpu ;;
      m <- lift (py_min cpg) ;;
      modify (with_counter m)
    else
      c <- getf _counter ;;
      size <- getf _size ;;
      r <- lift (py_mod c size) ;;
      modify (with_counter r)
  else
    modify (with_counter 0).

(** Second block of [reset]: the next shard and the length of the next
    epoch. *)
Definition reset_shards : M unit :=
  name <- getf _reader_name ;;
  when (truthy name)
    (stick <- rd _is_stick_to_shard ;;
     when (negb stick)
       (ids <- rd _shards_id ;;
        n <- rd _shards_num ;;
        wr (with_shards_id (Np.mod_scalar (map (fun x => x + 1) ids) n))) ;;
     fill <- getf _fill_last_batch ;;
     padded <- getf _last_batch_padded ;;
     when (fill && negb padded)
       (stick <- rd _is_stick_to_shard ;;
        when (negb stick)
          (sizes <- rd _shard_sizes_per_gpu ;;
           wr (with_shard_sizes_per_gpu (Np.roll sizes))) ;;
        sizes <- rd _shard_sizes_per_gpu ;;
        cpg <- rd _counter_per_gpu ;;
        read_in_next_epoch <- lift (Np.broadcast Z.sub sizes cpg) ;;
        m <- lift (py_max read_in_next_epoch) ;;
        bs <- getf batch_size ;;
        q <- lift (np_ceil_div m bs) ;;
        modify (with_size (q * bs)) ;;
        size <- getf _size ;;
        when (size =? 0)
          (n <- rd _shards_num ;;
           z <- lift (Np.zeros n) ;;
           wr (with_counter_per_gpu z) ;;
           modify (with_counter 0) ;;
           sizes <- rd _shard_sizes_per_gpu ;;
           wr (with_shard_sizes_per_gpu (Np.roll sizes)) ;;
           sizes <- rd _shard_sizes_per_gpu ;;
           m <- lift (py_max sizes) ;;
           bs <- getf batch_size ;;
           q <- lift (np_ceil_div m bs) ;;
           modify (with_size (q * bs))))).

Definition reset : M unit :=
  c <- getf _counter ;;
  size <- getf _size ;;
  if (size <=? c) || (size <? 0) then
    reset_counter ;;
    reset_shards ;;
    pipes <- getf _pipes ;;
    reset_pipes 0 pipes
  else
    emit EvLoggingWarning.

Definition _check_stop : M unit :=
  c <- getf _counter ;;
  size <- getf _size ;;
  if (size <=? c) && (0 <? size) then
    auto <- getf _auto_reset ;;
    when auto reset ;;
    raise StopIteration
  else
    ret tt.

(** What [_remove_padded] returns: [if_drop] is [False] or a boolean
    array, [left] is the integer -1 or an integer array. *)
Inductive pyval : Type :=
| PyNone
| PyBool (b : bool)
| PyInt (z : Z)
| NdBool (a : list bool)
| NdInt (a : list Z).

Definition _remove_padded : M (pyval * pyval) :=
  fill <- getf _fill_last_batch ;;
  if negb fill then
    bs <- getf batch_size ;;
    c <- getf _counter ;;
    initial <- rd _shard_sizes_per_gpu_initial ;;
    ids <- rd _shards_id ;;
    sizes <- lift (Np.take initial ids) ;;
    let left := map (fun x => bs - (c - x)) sizes in
    let if_drop := map (fun x => x <? bs) left in
    ret (NdBool if_drop, NdInt left)
  else
    ret (PyBool false, PyInt (-1)).

(** ** Vocabulary of the statements *)

Definition lmin (l : list Z) : Z :=
  match l with
  | [] => 0
  | x :: r => fold_left Z.min r x
  end.

Definition lmax (l : list Z) : Z :=
  match l with
  | [] => 0
  | x :: r => fold_left Z.max r x
  end.

Definition zsum (l : list Z) : Z := fold_right Z.add 0 l.

(** The trace that the loop over the pipelines leaves. *)
Fixpoint pipe_events (i : nat) (pipes : list Pipeline) : list event :=
  match pipes with
  | [] => []
  | p :: rest =>
      [EvReset i; EvEmpty i]
        ++ (if p_empty p then [EvScheduleRun i] else [])
        ++ pipe_events (S i) rest
  end.

(** The class invariant that construction establishes: the reader
    attributes exist exactly in reader-driven mode, the per-shard arrays
    have [_shards_num] >= 1 entries, and the divisors that [reset] uses
    are not zero. *)
Definition well_formed (s : Iter) : bool :=
  let rebasing := _fill_last_batch s && negb (_last_batch_padded s) in
  if truthy (_reader_name s) then
    match _reader s with
    | Some r =>
        (1 <=? _shards_num r)
        && (length (_counter_per_gpu r) =? Z.to_nat (_shards_num r))%nat
        && (length (_shard_sizes_per_gpu r) =? Z.to_nat (_shards_num r))%nat
        && (negb rebasing || negb (batch_size s =? 0))
    | None => false
    end
  else negb rebasing || negb (_size s =? 0).

(** The epoch boundary. *)
Definition at_boundary (s : Iter) : Prop := _size s <= _counter s.

(** The rebase of the counters as the specification words it: subtract
    the minimum from the counter, add the result to every entry,
    subtract the shard sizes entrywise; the new counter is the minimum of
    the result. *)
Definition spec_rebase_per_worker (counter : Z) (cpw sizes : list Z) : list Z :=
  let rebased := counter - lmin cpw in
  Np.map2 Z.sub (map (fun x => x + rebased) cpw) sizes.

Definition spec_rebase_counter (counter : Z) (cpw sizes : list Z) : Z :=
  lmin (spec_rebase_per_worker counter cpw sizes).

(** The length of the next epoch as the specification words it. *)
Definition spec_effective_size (sizes cpw : list Z) (bs : Z) : Z :=
  ceil_quot (lmax (Np.map2 Z.sub sizes cpw)) bs * bs.

(** The initial length of the epoch as the specification words it. *)
Definition spec_initial_size (padded : bool)
    (epoch_size_padded size_no_pad shards_num bs : Z) : Z :=
  if padded then epoch_size_padded / shards_num
  else ceil_quot (ceil_quot size_no_pad shards_num) bs * bs.

(** The shard that follows shard [i] among [n]. *)
Definition next_shard (n i : Z) : Z := (i + 1) mod n.


(** Modelled from the spec: the step of the caller, which this class does
    not contain ("Transition ACTIVE->ACTIVE on a successful batch draw
    (counter += batch_size, performed by caller)", where ACTIVE is
    [counter < effective_size]). *)
Definition draw_batch (s : Iter) : Iter :=
  with_counter (_counter s + batch_size s) s.

(** The states an iterator built as [s0] goes through. *)
Inductive reachable (s0 : Iter) : Iter -> Prop :=
| reach_init : reachable s0 s0
| reach_draw s :
    reachable s0 s -> _counter s < _size s -> reachable s0 (draw_batch s)
| reach_reset s r s' :
    reachable s0 s -> reset s = (r, s') -> reachable s0 s'
| reach_check_stop s r s' :
    reachable s0 s -> _check_stop s = (r, s') -> reachable s0 s'.

(** Disagreement of the workers on a value, and a flag that some workers
    set and others do not. *)
Definition disagree {A B} (f : A -> B) (l : list A) : Prop :=
  exists x y, In x l /\ In y l /\ f x <> f y.

Definition mixed {A} (f : A -> bool) (l : list A) : Prop :=
  exists x y, In x l /\ In y l /\ f x = true /\ f y = false.

Definition reader_ids (s : Iter) : list Z :=
  match _reader s with
  | Some r => _shards_id r
  | None => []
  end.

(** ** The three steps of a reset at the boundary, in closed form *)

(** The object once the pipelines have been reset and primed. *)
Definition primed (s : Iter) : Iter :=
  with_trace (trace s ++ pipe_events 0 (_pipes s)) s.

(** The object once the counters have been rebased (reader-driven,
    filling and not padding). *)
Definition rebased (s : Iter) : Iter :=
  match _reader s with
  | Some r =>
      let cpg := spec_rebase_per_worker (_counter s) (_counter_per_gpu r)
                   (_shard_sizes_per_gpu r) in
      with_counter (lmin cpg) (with_reader (Some (with_counter_per_gpu cpg r)) s)
  | None => s
  end.

(** The object once every worker has moved to its next shard. *)
Definition rotated (s : Iter) : Iter :=
  match _reader s with
  | Some r =>
      if _is_stick_to_shard r then s
      else with_reader
             (Some (with_shards_id
                      (map (next_shard (_shards_num r)) (_shards_id r)) r)) s
  | None => s
  end.

(** The object once the length of the next epoch has been computed
    (reader-driven, filling and not padding). *)
Definition resized (s : Iter) : Iter :=
  match _reader s with
  | Some r =>
      let sizes := if _is_stick_to_shard r then _shard_sizes_per_gpu r
                   else Np.roll (_shard_sizes_per_gpu r) in
      let size := spec_effective_size sizes (_counter_per_gpu r) (batch_size s) in
      if size =? 0 then
        let zeros := repeat 0 (Z.to_nat (_shards_num r)) in
        let sizes' := Np.roll sizes in
        with_size (ceil_quot (lmax sizes') (batch_size s) * batch_size s)
          (with_reader
             (Some (with_shard_sizes_per_gpu sizes'
                      (with_counter_per_gpu zeros r)))
             (with_counter 0 s))
      else
        with_size size
          (with_reader (Some (with_shard_sizes_per_gpu sizes r)) s)
  | None => s
  end.

(** The object after the first two blocks of a reset at the boundary. *)
Definition after_reset (s : Iter) : Iter :=
  let rebasing := _fill_last_batch s && negb (_last_batch_padded s) in
  if truthy (_reader_name s) then
    if rebasing then resized (rotated (rebased s))
    else rotated (with_counter 0 s)
  else
    if rebasing then with_counter (_counter s mod _size s) s
    else with_counter 0 s.

(** The invariant of the epochs of a reader-driven object that does not
    pad: the length of the epoch is a non-negative multiple of the batch
    size, and, when the last batch is filled, the epoch starts at the
    smallest per-worker counter, which is below the batch size, advances
    in whole batches, overshoots the length by less than a batch, and has
    the length that the remaining samples of the slowest worker need. *)
Definition epoch_inv (s : Iter) : Prop :=
  truthy (_reader_name s) = true
  /\ _last_batch_padded s = false
  /\ 1 <= batch_size s
  /\ (batch_size s | _size s)
  /\ 0 <= _size s
  /\ exists r,
       _reader s = Some r
       /\ 1 <= _shards_num r
       /\ length (_counter_per_gpu r) = Z.to_nat (_shards_num r)
       /\ length (_shard_sizes_per_gpu r) = Z.to_nat (_shards_num r)
       /\ Forall (fun x => 0 <= x) (_shard_sizes_per_gpu r)
       /\ (_fill_last_batch s = true ->
           0 <= lmin (_counter_per_gpu r) < batch_size s
           /\ lmin (_counter_per_gpu r) <= _counter s
           /\ (batch_size s | _counter s - lmin (_counter_per_gpu r))
           /\ _counter s < _size s + batch_size s
           /\ _size s = spec_effective_size (_shard_sizes_per_gpu r)
                          (_counter_per_gpu r) (batch_size s)).

(** ** Example objects *)

Definition mk_meta (shards size size_padded id : Z) (pad stick : bool)
  : ReaderMeta :=
  {| epoch_size := size; epoch_size_padded := size_padded;
     number_of_shards := shards; shard_id := id;
     pad_last_batch := pad; stick_to_shard := stick |}.

Definition mk_pipe (bs : Z) (m : ReaderMeta) : Pipeline :=
  {| p_batch_size := bs; reader_meta := fun _ => m; p_empty := true |}.

(** Unwraps a construction that is known to succeed. *)
Definition built (r : res Iter) (default : Iter) : Iter :=
  match r with
  | Ok s => s
  | Raise _ => default
  end.

Definition blank : Iter :=
  {| _num_gpus := 0; batch_size := 1; _size := 1; _auto_reset := false;
     _fill_last_batch := false; _last_batch_padded := false; _pipes := [];
     _counter := 0; _reader_name := None; _reader := None; trace := [] |}.

(** One worker over the data set 1..7 with batches of 2, sized by the
    reader, wrapping the last batch. *)
Definition it7 (fill auto : bool) : Iter :=
  built (__init__ [mk_pipe 2 (mk_meta 1 7 7 0 false false)] (-1)
           (Some "Reader"%string) auto fill false) blank.

(** The same with a reader that pads the last batch. *)
Definition it7_padded : Iter :=
  built (__init__ [mk_pipe 2 (mk_meta 1 7 7 0 true false)] (-1)
           (Some "Reader"%string) false true false) blank.


(** Three workers over the three shards of 10 samples, batches of 4. *)
Definition it3 : Iter :=
  built (__init__ [mk_pipe 4 (mk_meta 3 10 12 0 false false);
                   mk_pipe 4 (mk_meta 3 10 12 1 false false);
                   mk_pipe 4 (mk_meta 3 10 12 2 false false)] (-1)
           (Some "Reader"%string) false true false) blank.

(** Two shards over a single sample, batches of 4: the first epoch reads
    past both the current and the next shard of every worker. *)
Definition it_skip : Iter :=
  built (__init__ [mk_pipe 4 (mk_meta 2 1 2 0 false false);
                   mk_pipe 4 (mk_meta 2 1 2 1 false false)] (-1)
           (Some "Reader"%string) false true false) blank.

(** One worker, 7 samples, sized by hand. *)
Definition it7_manual : Iter :=
  built (__init__ [mk_pipe 2 (mk_meta 1 7 7 0 false false)] 7 None
           false true false) blank.

(** ** Uses of the object *)

(** Any use of the object by a subclass or a caller: the counter is
    moved to any value, and the methods are called in any order. *)
Inductive evolves (s0 : Iter) : Iter -> Prop :=
| ev_start : evolves s0 s0
| ev_counter s c : evolves s0 s -> evolves s0 (with_counter c s)
| ev_reset s r s' : evolves s0 s -> reset s = (r, s') -> evolves s0 s'
| ev_check_stop s r s' :
    evolves s0 s -> _check_stop s = (r, s') -> evolves s0 s'
| ev_remove_padded s r s' :
    evolves s0 s -> _remove_padded s = (r, s') -> evolves s0 s'.

(** The part of the reader set-up that is configuration. *)
Definition same_layout (r r' : ReaderAttrs) : Prop :=
  _size_no_pad r' = _size_no_pad r
  /\ _shards_num r' = _shards_num r
  /\ _is_stick_to_shard r' = _is_stick_to_shard r
  /\ _shard_sizes_per_gpu_initial r' = _shard_sizes_per_gpu_initial r.

(** The configuration of the object: everything but the counter, the
    length of the epoch, the shard each worker is on, the per-worker
    counters, the current shard sizes and the trace. *)
Definition same_config (s s' : Iter) : Prop :=
  _num_gpus s' = _num_gpus s
  /\ batch_size s' = batch_size s
  /\ _auto_reset s' = _auto_reset s
  /\ _fill_last_batch s' = _fill_last_batch s
  /\ _last_batch_padded s' = _last_batch_padded s
  /\ _pipes s' = _pipes s
  /\ _reader_name s' = _reader_name s
  /\ match _reader s, _reader s' with
     | Some r, Some r' => same_layout r r'
     | None, None => True
     | _, _ => False
     end.

(** A method that keeps the configuration on every path, also when it
    raises. *)
Definition keeps {A} (m : M A) : Prop :=
  forall s, same_config s (snd (m s)).


(** * Properties *)

(** ** Rounded division *)

Lemma ceil_quot_bounds (a b : Z) :
  0 < b -> a <= ceil_quot a b * b < a + b.
Proof.
  intros Hb. unfold ceil_quot.
  pose proof (Z.div_mod (- a) b ltac:(lia)) as E.
  pose proof (Z.mod_pos_bound (- a) b Hb) as B.
  nia.
Qed.

Lemma ceil_quot_divides (a b : Z) : (b | ceil_quot a b * b).
Proof. exists (ceil_quot a b). reflexivity. Qed.

Lemma ceil_quot_nonneg (a b : Z) : 0 < b -> - b < a -> 0 <= ceil_quot a b * b.
Proof.
  intros Hb Ha.
  pose proof (ceil_quot_bounds a b Hb) as B.
  destruct (Z_lt_le_dec (ceil_quot a b) 0) as [N | N]; [nia | nia].
Qed.

(** ** Minimum and maximum of an array *)

Lemma fold_min_spec (l : list Z) (x : Z) :
  (fold_left Z.min l x = x \/ In (fold_left Z.min l x) l)
  /\ fold_left Z.min l x <= x
  /\ Forall (fun y => fold_left Z.min l x <= y) l.
Proof.
  revert x. induction l as [| a l IH]; intros x; simpl.
  - repeat split; [now left | lia | constructor].
  - destruct (IH (Z.min x a)) as (Hin & Hle & Hall).
    repeat split.
    + destruct Hin as [E | Hin]; [| now right; right].
      rewrite E. destruct (Z.min_spec x a) as [[_ M] | [_ M]]; rewrite M;
        [now left | now right; left].
    + lia.
    + constructor; [lia | exact Hall].
Qed.

Lemma fold_max_spec (l : list Z) (x : Z) :
  (fold_left Z.max l x = x \/ In (fold_left Z.max l x) l)
  /\ x <= fold_left Z.max l x
  /\ Forall (fun y => y <= fold_left Z.max l x) l.
Proof.
  revert x. induction l as [| a l IH]; intros x; simpl.
  - repeat split; [now left | lia | constructor].
  - destruct (IH (Z.max x a)) as (Hin & Hle & Hall).
    repeat split.
    + destruct Hin as [E | Hin]; [| now right; right].
      rewrite E. destruct (Z.max_spec x a) as [[_ M] | [_ M]]; rewrite M;
        [now right; left | now left].
    + lia.
    + constructor; [lia | exact Hall].
Qed.

Lemma lmin_in (l : list Z) : l <> [] -> In (lmin l) l.
Proof.
  destruct l as [| x r]; [congruence | intros _]. simpl.
  destruct (fold_min_spec r x) as ([E | H] & _ & _); [left; now rewrite E | now right].
Qed.

Lemma lmin_le (l : list Z) (y : Z) : In y l -> lmin l <= y.
Proof.
  destruct l as [| x r]; [contradiction |]. simpl.
  destruct (fold_min_spec r x) as (_ & Hx & Hall).
  intros [E | H]; [lia |].
  rewrite Forall_forall in Hall. now apply Hall.
Qed.

Lemma lmax_in (l : list Z) : l <> [] -> In (lmax l) l.
Proof.
  destruct l as [| x r]; [congruence | intros _]. simpl.
  destruct (fold_max_spec r x) as ([E | H] & _ & _); [left; now rewrite E | now right].
Qed.

Lemma lmax_ge (l : list Z) (y : Z) : In y l -> y <= lmax l.
Proof.
  destruct l as [| x r]; [contradiction |]. simpl.
  destruct (fold_max_spec r x) as (_ & Hx & Hall).
  intros [E | H]; [lia |].
  rewrite Forall_forall in Hall. now apply Hall.
Qed.

Lemma py_min_lmin (l : list Z) : l <> [] -> py_min l = Ok (lmin l).
Proof. destruct l; [congruence | reflexivity]. Qed.

Lemma py_max_lmax (l : list Z) : l <> [] -> py_max l = Ok (lmax l).
Proof. destruct l; [congruence | reflexivity]. Qed.

Lemma length_nonempty {A} (l : list A) : (1 <= length l)%nat -> l <> [].
Proof. destruct l; simpl; [lia | congruence]. Qed.

(** ** Array operations *)

Lemma map2_length f (a b : list Z) :
  length a = length b -> length (Np.map2 f a b) = length a.
Proof.
  intros E. unfold Np.map2. rewrite length_map, length_combine. lia.
Qed.

Lemma broadcast_same_length f (a b : list Z) :
  length a = length b -> Np.broadcast f a b = Ok (Np.map2 f a b).
Proof.
  intros E. unfold Np.broadcast. now rewrite E, Nat.eqb_refl.
Qed.

Lemma roll_perm (a : list Z) : Permutation (Np.roll a) a.
Proof.
  unfold Np.roll. destruct (rev a) as [| x r] eqn:E.
  - apply (f_equal (@rev Z)) in E. rewrite rev_involutive in E. now subst.
  - apply (f_equal (@rev Z)) in E. rewrite rev_involutive in E. subst a.
    simpl. now apply Permutation_cons_append.
Qed.

Lemma roll_length (a : list Z) : length (Np.roll a) = length a.
Proof. apply Permutation_length, roll_perm. Qed.

Lemma in_map2 f (a b : list Z) (z : Z) :
  In z (Np.map2 f a b) <-> exists x y, In (x, y) (combine a b) /\ z = f x y.
Proof.
  unfold Np.map2. rewrite in_map_iff. split.
  - intros [[x y] [E H]]. simpl in E. eauto.
  - intros (x & y & H & E). exists (x, y). simpl. split; [now symmetry | exact H].
Qed.

Lemma in_combine_swap {A B} (a : list A) (b : list B) x y :
  In (x, y) (combine a b) -> In (y, x) (combine b a).
Proof.
  revert b. induction a as [| u a IH]; intros [| v b]; simpl; try contradiction.
  intros [E | H]; [left; congruence | right; now apply IH].
Qed.

Lemma in_combine_right {A B} (a : list A) (b : list B) y :
  length a = length b -> In y b -> exists x, In (x, y) (combine a b).
Proof.
  revert b. induction a as [| u a IH]; intros [| v b]; simpl; try discriminate;
    try contradiction.
  intros E [-> | H].
  - exists u. now left.
  - destruct (IH b ltac:(lia) H) as [x Hx]. exists x. now right.
Qed.

(** ** The methods in closed form *)

#[local] Arguments truthy : simpl never.
#[local] Arguments py_min : simpl never.
#[local] Arguments py_max : simpl never.
#[local] Arguments lmin : simpl never.
#[local] Arguments lmax : simpl never.
#[local] Arguments Np.broadcast : simpl never.
#[local] Arguments Np.roll : simpl never.
#[local] Arguments Np.zeros : simpl never.
#[local] Arguments np_ceil_div : simpl never.
#[local] Arguments py_mod : simpl never.
#[local] Arguments Z.mul : simpl never.
#[local] Arguments Z.sub : simpl never.
#[local] Arguments Z.add : simpl never.
#[local] Arguments Z.eqb : simpl never.
#[local] Arguments Z.leb : simpl never.
#[local] Arguments Z.ltb : simpl never.

Ltac run_method :=
  unfold bind, getf, rd, wr, modify, lift, ret, when, emit, raise; simpl.

Lemma reset_pipes_trace (pipes : list Pipeline) (i : nat) (s : Iter) :
  reset_pipes i pipes s = (Ok tt, with_trace (trace s ++ pipe_events i pipes) s).
Proof.
  revert i s. induction pipes as [| p rest IH]; intros i s.
  - simpl. unfold ret. destruct s; unfold with_trace; simpl.
    now rewrite app_nil_r.
  - simpl. run_method. destruct (p_empty p); simpl; rewrite IH;
      destruct s; unfold with_trace; simpl; f_equal; f_equal;
      rewrite <- !app_assoc; reflexivity.
Qed.

Lemma well_formed_reader (s : Iter) :
  well_formed s = true -> truthy (_reader_name s) = true ->
  exists r, _reader s = Some r
    /\ 1 <= _shards_num r
    /\ length (_counter_per_gpu r) = Z.to_nat (_shards_num r)
    /\ length (_shard_sizes_per_gpu r) = Z.to_nat (_shards_num r)
    /\ (_fill_last_batch s && negb (_last_batch_padded s) = true ->
        batch_size s <> 0).
Proof.
  unfold well_formed. intros W T. rewrite T in W.
  destruct (_reader s) as [r |]; [| discriminate].
  exists r. rewrite !andb_true_iff in W. destruct W as [[[A B] C] D].
  repeat split.
  - lia.
  - now apply Nat.eqb_eq.
  - now apply Nat.eqb_eq.
  - intros F. rewrite F in D. simpl in D. apply negb_true_iff in D. lia.
Qed.

Lemma reset_counter_reader (s : Iter) :
  well_formed s = true -> truthy (_reader_name s) = true ->
  _fill_last_batch s = true -> _last_batch_padded s = false ->
  reset_counter s = (Ok tt, rebased s).
Proof.
  intros W T F P.
  destruct (well_formed_reader s W T) as (r & R & N & Lc & Ls & _).
  assert (Hne : _counter_per_gpu r <> []) by (apply length_nonempty; lia).
  unfold reset_counter, rebased, spec_rebase_per_worker.
  destruct s; simpl in *; subst. run_method. rewrite T. simpl.
  rewrite (py_min_lmin _ Hne). simpl.
  rewrite broadcast_same_length by (rewrite length_map; lia).
  rewrite py_min_lmin.
  - destruct r; reflexivity.
  - apply length_nonempty. rewrite map2_length; rewrite length_map; lia.
Qed.

Lemma mod_scalar_next (ids : list Z) (n : Z) :
  n <> 0 ->
  Np.mod_scalar (map (fun x => x + 1) ids) n = map (next_shard n) ids.
Proof.
  intros N. unfold Np.mod_scalar, next_shard. rewrite map_map.
  apply map_ext. intros x. destruct (Z.eqb_spec n 0); [contradiction | reflexivity].
Qed.

Lemma zeros_ok (n : Z) : 0 <= n -> Np.zeros n = Ok (repeat 0 (Z.to_nat n)).
Proof.
  intros N. unfold Np.zeros. destruct (Z.ltb_spec n 0); [lia | reflexivity].
Qed.

Lemma np_ceil_div_ok (m b : Z) : b <> 0 -> np_ceil_div m b = Ok (ceil_quot m b).
Proof.
  intros B. unfold np_ceil_div. destruct (Z.eqb_spec b 0); [contradiction | reflexivity].
Qed.

Lemma well_formed_rebased (s : Iter) :
  well_formed s = true -> truthy (_reader_name s) = true ->
  well_formed (rebased s) = true.
Proof.
  intros W T.
  destruct (well_formed_reader s W T) as (r & R & N & Lc & Ls & _).
  unfold rebased, well_formed in *. rewrite R in *.
  destruct s; simpl in *. rewrite T in *.
  unfold spec_rebase_per_worker.
  rewrite map2_length by (rewrite length_map; lia).
  rewrite length_map. exact W.
Qed.

Lemma reset_shards_rebasing (s : Iter) :
  well_formed s = true -> truthy (_reader_name s) = true ->
  _fill_last_batch s = true -> _last_batch_padded s = false ->
  reset_shards s = (Ok tt, resized (rotated s)).
Proof.
  intros W T F P.
  destruct (well_formed_reader s W T) as (r & R & N & Lc & Ls & B).
  specialize (B ltac:(now rewrite F, P)).
  unfold reset_shards, resized, rotated, spec_effective_size.
  destruct s, r; simpl in *; subst. run_method. rewrite T. simpl.
  destruct _is_stick_to_shard0; simpl.
  - rewrite broadcast_same_length by lia.
    rewrite py_max_lmax
      by (apply length_nonempty; rewrite map2_length; lia).
    rewrite np_ceil_div_ok by exact B. simpl.
    match goal with |- context [?e =? 0] => destruct (e =? 0) end; simpl.
    + rewrite zeros_ok by lia. simpl.
      rewrite py_max_lmax by (apply length_nonempty; rewrite roll_length; lia).
      rewrite np_ceil_div_ok by exact B. reflexivity.
    + reflexivity.
  - rewrite mod_scalar_next by lia.
    rewrite broadcast_same_length by (rewrite roll_length; lia).
    rewrite py_max_lmax
      by (apply length_nonempty; rewrite map2_length; rewrite roll_length; lia).
    rewrite np_ceil_div_ok by exact B. simpl.
    match goal with |- context [?e =? 0] => destruct (e =? 0) end; simpl.
    + rewrite zeros_ok by lia. simpl.
      rewrite py_max_lmax
        by (apply length_nonempty; rewrite !roll_length; lia).
      rewrite np_ceil_div_ok by exact B. reflexivity.
    + reflexivity.
Qed.

Lemma reset_shards_plain (s : Iter) :
  well_formed s = true -> truthy (_reader_name s) = true ->
  _fill_last_batch s && negb (_last_batch_padded s) = false ->
  reset_shards s = (Ok tt, rotated s).
Proof.
  intros W T F.
  destruct (well_formed_reader s W T) as (r & R & N & _).
  unfold reset_shards, rotated.
  destruct s, r; simpl in *; subst. run_method. rewrite T. simpl.
  destruct _is_stick_to_shard0; simpl; rewrite F; simpl.
  - reflexivity.
  - rewrite mod_scalar_next by lia. reflexivity.
Qed.

Lemma reset_shards_manual (s : Iter) :
  truthy (_reader_name s) = false -> reset_shards s = (Ok tt, s).
Proof.
  intros T. unfold reset_shards. run_method. now rewrite T.
Qed.

(** A reset at the boundary of a well-formed object never raises, and
    leaves the object in the closed form above. *)
Lemma reset_at_boundary (s : Iter) :
  well_formed s = true ->
  _size s <= _counter s \/ _size s < 0 ->
  reset s = (Ok tt, primed (after_reset s)).
Proof.
  intros W Bd. unfold reset, after_reset.
  unfold bind at 1 2. unfold getf at 1 2.
  replace ((_size s <=? _counter s) || (_size s <? 0)) with true
    by (symmetry; apply orb_true_iff; destruct Bd;
        [left; now apply Z.leb_le | right; now apply Z.ltb_lt]).
  destruct (truthy (_reader_name s)) eqn:T.
  - destruct (_fill_last_batch s && negb (_last_batch_padded s)) eqn:F.
    + apply andb_true_iff in F. destruct F as [F P]. apply negb_true_iff in P.
      unfold bind. rewrite (reset_counter_reader s W T F P).
      rewrite reset_shards_rebasing;
        [ | now apply well_formed_rebased
          | unfold rebased; destruct (_reader s); exact T
          | unfold rebased; destruct (_reader s); exact F
          | unfold rebased; destruct (_reader s); exact P ].
      unfold getf. now rewrite reset_pipes_trace.
    + unfold bind.
      assert (E : reset_counter s = (Ok tt, with_counter 0 s)).
      { unfold reset_counter. run_method. now rewrite F. }
      rewrite E. rewrite reset_shards_plain; [ | exact W | exact T | exact F ].
      unfold getf. now rewrite reset_pipes_trace.
  - destruct (_fill_last_batch s && negb (_last_batch_padded s)) eqn:F.
    + assert (Z0 : _size s <> 0).
      { unfold well_formed in W. rewrite T, F in W. simpl in W.
        apply negb_true_iff in W. lia. }
      unfold bind.
      assert (E : reset_counter s
                  = (Ok tt, with_counter (_counter s mod _size s) s)).
      { unfold reset_counter. run_method. rewrite F, T. simpl.
        unfold py_mod. destruct (Z.eqb_spec (_size s) 0); [contradiction |].
        reflexivity. }
      rewrite E. rewrite reset_shards_manual by exact T.
      unfold getf. now rewrite reset_pipes_trace.
    + unfold bind.
      assert (E : reset_counter s = (Ok tt, with_counter 0 s)).
      { unfold reset_counter. run_method. now rewrite F. }
      rewrite E. rewrite reset_shards_manual by exact T.
      unfold getf. now rewrite reset_pipes_trace.
Qed.

Lemma reset_premature (s : Iter) :
  0 <= _size s -> _counter s < _size s ->
  reset s = (Ok tt, with_trace (trace s ++ [EvLoggingWarning]) s).
Proof.
  intros S C. unfold reset. run_method.
  destruct (Z.leb_spec (_size s) (_counter s)); [lia |].
  destruct (Z.ltb_spec (_size s) 0); [lia |]. reflexivity.
Qed.

(** ** The class invariant *)

Lemma well_formed_trace (s : Iter) (t : list event) :
  well_formed (with_trace t s) = well_formed s.
Proof. reflexivity. Qed.

Lemma well_formed_counter (s : Iter) (c : Z) :
  well_formed (with_counter c s) = well_formed s.
Proof. reflexivity. Qed.

Lemma well_formed_rotated (s : Iter) :
  well_formed s = true -> well_formed (rotated s) = true.
Proof.
  intros W. unfold rotated. destruct (_reader s) as [r |] eqn:R; [| exact W].
  destruct (_is_stick_to_shard r); [exact W |].
  unfold well_formed in *. simpl. now rewrite R in W.
Qed.

Lemma well_formed_resized (s : Iter) :
  well_formed s = true -> truthy (_reader_name s) = true ->
  well_formed (resized s) = true.
Proof.
  intros W T.
  destruct (well_formed_reader s W T) as (r & R & N & Lc & Ls & _).
  unfold resized. rewrite R.
  match goal with |- context [?e =? 0] => destruct (e =? 0) end;
    unfold well_formed in *; simpl; rewrite T, R in *; simpl;
    rewrite !andb_true_iff in *; destruct W as [[[A B] C] D].
  - repeat split; try assumption.
    + apply Nat.eqb_eq. now rewrite repeat_length.
    + apply Nat.eqb_eq. rewrite roll_length.
      destruct (_is_stick_to_shard r); [| rewrite roll_length]; exact Ls.
  - repeat split; try assumption.
    apply Nat.eqb_eq.
    destruct (_is_stick_to_shard r); [| rewrite roll_length]; exact Ls.
Qed.

Lemma rebased_name (s : Iter) : _reader_name (rebased s) = _reader_name s.
Proof. unfold rebased. now destruct (_reader s). Qed.

Lemma rotated_name (s : Iter) : _reader_name (rotated s) = _reader_name s.
Proof.
  unfold rotated. destruct (_reader s) as [r |]; [| reflexivity].
  now destruct (_is_stick_to_shard r).
Qed.

Lemma well_formed_after_reset (s : Iter) :
  well_formed s = true -> well_formed (primed (after_reset s)) = true.
Proof.
  intros W. unfold primed. rewrite well_formed_trace. unfold after_reset.
  destruct (truthy (_reader_name s)) eqn:T.
  - destruct (_fill_last_batch s && negb (_last_batch_padded s)) eqn:F.
    + apply well_formed_resized.
      * apply well_formed_rotated. now apply well_formed_rebased.
      * now rewrite rotated_name, rebased_name.
    + apply well_formed_rotated. now rewrite well_formed_counter.
  - destruct (_fill_last_batch s && negb (_last_batch_padded s));
      now rewrite well_formed_counter.
Qed.

(** [reset] never raises on a well-formed object and keeps it
    well-formed. *)
Lemma reset_total (s : Iter) :
  well_formed s = true ->
  exists s', reset s = (Ok tt, s') /\ well_formed s' = true.
Proof.
  intros W.
  destruct (Z_le_gt_dec (_size s) (_counter s)) as [B | B].
  - exists (primed (after_reset s)). split.
    + apply reset_at_boundary; [exact W | now left].
    + now apply well_formed_after_reset.
  - destruct (Z_lt_le_dec (_size s) 0) as [U | U].
    + exists (primed (after_reset s)). split.
      * apply reset_at_boundary; [exact W | now right].
      * now apply well_formed_after_reset.
    + exists (with_trace (trace s ++ [EvLoggingWarning]) s). split.
      * apply reset_premature; lia.
      * exact W.
Qed.

(** ** Construction *)

Lemma rbind_ok {A B} (r : res A) (k : A -> res B) (b : B) :
  rbind r k = Ok b -> exists a, r = Ok a /\ k a = Ok b.
Proof. destruct r as [a | e]; simpl; [eauto | discriminate]. Qed.

Lemma assert_ok (c : bool) (m : option string) (u : unit) :
  assert c m = Ok u -> c = true.
Proof. unfold assert. destruct c; [reflexivity | discriminate]. Qed.

Lemma check_equality_ok (metas : list ReaderMeta) (name : ReaderMeta -> Z)
    (msg : string) (v : Z) :
  check_equality_and_get metas name msg = Ok v ->
  exists m0 rest, metas = m0 :: rest /\ v = name m0
    /\ forall m, In m metas -> name m = v.
Proof.
  unfold check_equality_and_get. intros H.
  destruct metas as [| m0 rest]; [discriminate |]. simpl first_meta in H.
  cbv beta iota delta [rbind] in H.
  destruct (assert _ _) eqn:A in H; [| discriminate].
  apply assert_ok in A. injection H as <-.
  exists m0, rest. repeat split.
  rewrite forallb_forall in A. intros m Hm. apply Z.eqb_eq. now apply A.
Qed.

Lemma check_all_or_none_ok (metas : list ReaderMeta)
    (name : ReaderMeta -> bool) (msg : string) (v : bool) :
  check_all_or_none_and_get metas metas name msg = Ok v ->
  exists m0 rest, metas = m0 :: rest /\ v = name m0
    /\ forall m, In m metas -> name m = v.
Proof.
  unfold check_all_or_none_and_get. intros H.
  destruct (assert _ _) eqn:A in H; [| discriminate].
  apply assert_ok in A. simpl in H.
  destruct metas as [| m0 rest]; [discriminate |]. simpl in H.
  injection H as <-. exists m0, rest. repeat split.
  intros m Hm. apply orb_true_iff in A. destruct A as [A | A].
  - rewrite forallb_forall in A. rewrite (A m Hm). symmetry. apply A. now left.
  - apply negb_true_iff in A.
    assert (N : forall x, In x (m0 :: rest) -> name x = false).
    { intros x Hx. destruct (name x) eqn:E; [| reflexivity].
      assert (existsb name (m0 :: rest) = true)
        by (apply existsb_exists; eauto).
      congruence. }
    rewrite (N m Hm). symmetry. apply N. now left.
Qed.

#[local] Arguments spec_initial_size : simpl never.
#[local] Arguments _calculate_shard_sizes : simpl never.
#[local] Arguments Np.arange : simpl never.

(** What a successful interrogation of the reader has established. *)
Lemma extract_reader_ok (self s : Iter) (name : string) :
  _reader_name self = Some name -> truthy (Some name) = true ->
  _extract_from_reader_and_validate self = Ok s ->
  exists m0 rest,
    map (fun p => reader_meta p name) (_pipes self) = m0 :: rest
    /\ 1 <= number_of_shards m0
    /\ (forall m, In m (m0 :: rest) ->
          epoch_size m = epoch_size m0
          /\ number_of_shards m = number_of_shards m0
          /\ pad_last_batch m = pad_last_batch m0
          /\ stick_to_shard m = stick_to_shard m0)
    /\ (pad_last_batch m0 = false -> batch_size self <> 0)
    /\ s = with_reader
             (Some {| _size_no_pad := epoch_size m0;
                      _shards_num := number_of_shards m0;
                      _is_stick_to_shard := stick_to_shard m0;
                      _shards_id := map shard_id (m0 :: rest);
                      _counter_per_gpu :=
                        repeat 0 (Z.to_nat (number_of_shards m0));
                      _shard_sizes_per_gpu :=
                        _calculate_shard_sizes (epoch_size m0)
                          (number_of_shards m0)
                          (Np.arange (number_of_shards m0));
                      _shard_sizes_per_gpu_initial :=
                        _calculate_shard_sizes (epoch_size m0)
                          (number_of_shards m0)
                          (Np.arange (number_of_shards m0)) |})
             (with_size
                (spec_initial_size (pad_last_batch m0) (epoch_size_padded m0)
                   (epoch_size m0) (number_of_shards m0) (batch_size self))
                (with_last_batch_padded (pad_last_batch m0) self)).
Proof.
  intros N T H. unfold _extract_from_reader_and_validate in H.
  rewrite N, T in H.
  set (metas := map (fun p => reader_meta p name) (_pipes self)) in *.
  apply rbind_ok in H. destruct H as (size_no_pad & E1 & H).
  apply rbind_ok in H. destruct H as (shards_num & E2 & H).
  apply rbind_ok in H. destruct H as (padded & E3 & H).
  apply rbind_ok in H. destruct H as (stick & E4 & H).
  apply rbind_ok in H. destruct H as (size & E5 & H).
  apply rbind_ok in H. destruct H as (zeros & E6 & H).
  injection H as <-.
  apply check_equality_ok in E1. destruct E1 as (m0 & rest & M & -> & A1).
  apply check_equality_ok in E2. destruct E2 as (m1 & rest1 & M1 & -> & A2).
  apply check_all_or_none_ok in E3. destruct E3 as (m2 & rest2 & M2 & -> & A3).
  apply check_all_or_none_ok in E4. destruct E4 as (m3 & rest3 & M3 & -> & A4).
  rewrite M in M1, M2, M3.
  injection M1 as <- <-. injection M2 as <- <-. injection M3 as <- <-.
  unfold Np.zeros in E6.
  destruct (Z.ltb_spec (number_of_shards m0) 0) as [| Hn]; [discriminate |].
  injection E6 as <-.
  assert (Hs : number_of_shards m0 <> 0
               /\ (pad_last_batch m0 = false -> batch_size self <> 0)
               /\ size = spec_initial_size (pad_last_batch m0)
                           (epoch_size_padded m0) (epoch_size m0)
                           (number_of_shards m0) (batch_size self)).
  { unfold spec_initial_size. destruct (pad_last_batch m0).
    - rewrite M in E5. simpl in E5. unfold py_floordiv in E5.
      destruct (Z.eqb_spec (number_of_shards m0) 0); [discriminate |].
      injection E5 as <-. repeat split; [assumption | discriminate].
    - apply rbind_ok in E5. destruct E5 as (per_shard & E5 & E7).
      apply rbind_ok in E7. destruct E7 as (batches & E7 & E8).
      unfold py_ceil_div in E5, E7.
      destruct (Z.eqb_spec (number_of_shards m0) 0); [discriminate |].
      destruct (Z.eqb_spec (batch_size self) 0); [discriminate |].
      injection E5 as <-. injection E7 as <-. injection E8 as <-.
      repeat split; [assumption | intros _; assumption]. }
  destruct Hs as (Hn0 & Hb & ->).
  exists m0, rest. rewrite M in *. repeat split; try assumption; try lia.
  - now apply A1.
  - now apply A2.
  - now apply A3.
  - now apply A4.
Qed.

(** What a successful construction has checked. *)
Lemma init_ok (pipelines : list Pipeline) (size : Z) (name : option string)
    (auto fill lbp : bool) (s : Iter) :
  __init__ pipelines size name auto fill lbp = Ok s ->
  exists p0 rest,
    pipelines = p0 :: rest
    /\ (forall p, In p pipelines -> p_batch_size p = p_batch_size p0)
    /\ size <> 0
    /\ (truthy name = true -> size < 0 /\ lbp = false)
    /\ (truthy name = false -> size < 0 -> length pipelines = 1%nat)
    /\ let unsized := (size <? 0) && negb (truthy name) in
       let warned := (0 <? size) && negb (truthy name) in
       _extract_from_reader_and_validate
         {| _num_gpus := length pipelines;
            batch_size := p_batch_size p0;
            _size := size;
            _auto_reset := if unsized then false else auto;
            _fill_last_batch := if unsized then false else fill;
            _last_batch_padded := if unsized then false else lbp;
            _pipes := pipelines;
            _counter := 0;
            _reader_name := name;
            _reader := None;
            trace := (if warned then [EvDeprecationWarning] else [])
                       ++ map EvBuild (seq 0 (length pipelines)) |} = Ok s.
Proof.
  unfold __init__. intros H.
  destruct pipelines as [| p0 rest]; [discriminate |].
  cbv beta iota delta [rbind] in H.
  destruct (assert _ _) eqn:A1 in H; [| discriminate]. apply assert_ok in A1.
  destruct (assert _ _) eqn:A2 in H; [| discriminate]. apply assert_ok in A2.
  destruct (assert _ _) eqn:A3 in H; [| discriminate]. apply assert_ok in A3.
  destruct (assert _ _) eqn:A4 in H; [| discriminate]. apply assert_ok in A4.
  destruct (assert _ _) eqn:A5 in H; [| discriminate]. apply assert_ok in A5.
  exists p0, rest. repeat split.
  - rewrite forallb_forall in A1. intros p Hp. apply Z.eqb_eq. now apply A1.
  - apply negb_true_iff in A2. lia.
  - destruct (truthy name); [| discriminate]. simpl in A4. lia.
  - destruct (truthy name); [| discriminate]. simpl in A5.
    now apply negb_true_iff in A5.
  - intros T U. rewrite T in A3.
    destruct (Z.ltb_spec 0 size); [lia |]. simpl in A3.
    rewrite andb_true_iff, orb_false_r in A3. destruct A3 as [_ A3].
    now apply Nat.eqb_eq.
  - exact H.
Qed.

Lemma extract_manual (self : Iter) :
  truthy (_reader_name self) = false ->
  _extract_from_reader_and_validate self = Ok self.
Proof.
  intros T. unfold _extract_from_reader_and_validate.
  destruct (_reader_name self); [now rewrite T | reflexivity].
Qed.

Lemma truthy_some (name : option string) :
  truthy name = true -> exists n, name = Some n.
Proof. destruct name; [eauto | discriminate]. Qed.

Lemma calculate_shard_sizes_length (size_no_pad shards_num : Z) (l : list Z) :
  length (_calculate_shard_sizes size_no_pad shards_num l) = length l.
Proof.
  unfold _calculate_shard_sizes. rewrite map2_length; rewrite !length_map; reflexivity.
Qed.

Lemma arange_length (n : Z) : length (Np.arange n) = Z.to_nat n.
Proof. unfold Np.arange. now rewrite length_map, length_seq. Qed.

(** Construction establishes the class invariant. *)
Lemma init_well_formed (pipelines : list Pipeline) (size : Z)
    (name : option string) (auto fill lbp : bool) (s : Iter) :
  __init__ pipelines size name auto fill lbp = Ok s -> well_formed s = true.
Proof.
  intros H. apply init_ok in H.
  destruct H as (p0 & rest & -> & Hb & Hs & Hr & Hm & H). simpl in H.
  destruct (truthy name) eqn:T.
  - destruct (truthy_some name T) as [n ->].
    apply extract_reader_ok with (name := n) in H; [| reflexivity | exact T].
    destruct H as (m0 & metas & M & N & _ & B & ->). simpl in B.
    unfold well_formed. simpl. rewrite T. simpl.
    rewrite calculate_shard_sizes_length, arange_length, repeat_length.
    rewrite !Nat.eqb_refl.
    replace (1 <=? number_of_shards m0) with true by (symmetry; now apply Z.leb_le).
    simpl. destruct (pad_last_batch m0).
    + now rewrite andb_false_r.
    + specialize (B eq_refl). rewrite andb_true_r.
      destruct (Z.eqb_spec (p_batch_size p0) 0); [contradiction |].
      now rewrite orb_true_r.
  - rewrite extract_manual in H by exact T. injection H as <-.
    unfold well_formed. simpl. rewrite T.
    destruct (Z.eqb_spec size 0); [contradiction |]. now rewrite orb_true_r.
Qed.

(** ** Premature reset *)

(** C9. In a sized state ([_size >= 0]) whose counter has not reached
    [_size], [reset] raises nothing and changes nothing but the trace, to
    which it adds exactly one logging warning: the counter, the size, the
    shard ids, the per-worker counters and the shard sizes are those of
    before, and no pipeline is reset, asked whether it is empty or run. *)
Theorem reset_before_boundary_is_noop (s : Iter) :
  0 <= _size s -> _counter s < _size s ->
  exists s',
    reset s = (Ok tt, s')
    /\ _counter s' = _counter s
    /\ _size s' = _size s
    /\ _reader s' = _reader s
    /\ reader_ids s' = reader_ids s
    /\ _pipes s' = _pipes s
    /\ trace s' = trace s ++ [EvLoggingWarning]
    /\ s' = with_trace (trace s ++ [EvLoggingWarning]) s.
Proof.
  intros S C. exists (with_trace (trace s ++ [EvLoggingWarning]) s).
  split; [now apply reset_premature |]. repeat split.
Qed.

Lemma reset_before_boundary_is_noop_witness :
  exists s',
    reset (it7 true false) = (Ok tt, s')
    /\ _counter s' = _counter (it7 true false)
    /\ _size s' = _size (it7 true false)
    /\ _reader s' = _reader (it7 true false)
    /\ reader_ids s' = reader_ids (it7 true false)
    /\ _pipes s' = _pipes (it7 true false)
    /\ trace s' = trace (it7 true false) ++ [EvLoggingWarning]
    /\ s' = with_trace (trace (it7 true false) ++ [EvLoggingWarning])
              (it7 true false).
Proof.
  apply (reset_before_boundary_is_noop (it7 true false)); vm_compute;
    [discriminate | reflexivity].
Defined.

(** ** The stop condition *)

(** C3. On a well-formed object [_check_stop] raises [StopIteration]
    exactly when [_counter >= _size] and [_size > 0].  When it does and
    [_auto_reset] is set, the object it leaves is the one that [reset]
    leaves (the reset has run, without raising, before the signal); when
    it does and [_auto_reset] is not set, and when it does not signal,
    the object is untouched, and without a signal it returns normally. *)
Theorem check_stop_signals_at_boundary (s : Iter) :
  well_formed s = true ->
  let signal := _size s <= _counter s /\ 0 < _size s in
  (fst (_check_stop s) = Raise StopIteration <-> signal)
  /\ (signal -> _auto_reset s = true ->
      reset s = (Ok tt, primed (after_reset s))
      /\ _check_stop s = (Raise StopIteration, snd (reset s)))
  /\ (signal -> _auto_reset s = false ->
      _check_stop s = (Raise StopIteration, s))
  /\ (~ signal -> _check_stop s = (Ok tt, s)).
Proof.
  intros W signal. subst signal.
  assert (Yes : _size s <= _counter s /\ 0 < _size s ->
                _check_stop s
                = if _auto_reset s
                  then (Raise StopIteration, primed (after_reset s))
                  else (Raise StopIteration, s)).
  { intros [B P]. unfold _check_stop. run_method.
    destruct (Z.leb_spec (_size s) (_counter s)); [| lia].
    destruct (Z.ltb_spec 0 (_size s)); [| lia]. simpl.
    destruct (_auto_reset s); [| reflexivity].
    rewrite reset_at_boundary; [reflexivity | exact W | now left]. }
  assert (No : ~ (_size s <= _counter s /\ 0 < _size s) ->
               _check_stop s = (Ok tt, s)).
  { intros N. unfold _check_stop. run_method.
    destruct (Z.leb_spec (_size s) (_counter s));
      destruct (Z.ltb_spec 0 (_size s)); simpl; try reflexivity.
    exfalso. apply N. lia. }
  split; [split |]; [| | split; [| split]].
  - intros E.
    destruct (Z_le_gt_dec (_size s) (_counter s));
      destruct (Z_lt_le_dec 0 (_size s)); try lia;
      rewrite No in E by lia; discriminate.
  - intros Sg. rewrite Yes by exact Sg. now destruct (_auto_reset s).
  - intros Sg A. split.
    + apply reset_at_boundary; [exact W | left; tauto].
    + rewrite Yes by exact Sg. rewrite A.
      rewrite reset_at_boundary; [reflexivity | exact W | left; tauto].
  - intros Sg A. rewrite Yes by exact Sg. now rewrite A.
  - exact No.
Qed.

Lemma check_stop_signals_at_boundary_witness :
  let s := with_counter 8 (it7 true true) in
  let signal := _size s <= _counter s /\ 0 < _size s in
  (fst (_check_stop s) = Raise StopIteration <-> signal)
  /\ (signal -> _auto_reset s = true ->
      reset s = (Ok tt, primed (after_reset s))
      /\ _check_stop s = (Raise StopIteration, snd (reset s)))
  /\ (signal -> _auto_reset s = false ->
      _check_stop s = (Raise StopIteration, s))
  /\ (~ signal -> _check_stop s = (Ok tt, s)).
Proof.
  apply (check_stop_signals_at_boundary (with_counter 8 (it7 true true))).
  reflexivity.
Defined.

(** ** The initial length of the epoch *)



(** ** Padding of the last batch *)

Lemma item_in_range (a : list Z) (i : Z) :
  0 <= i < Z.of_nat (length a) -> Np.item a i = Ok (nth (Z.to_nat i) a 0).
Proof.
  intros R. unfold Np.item. cbv zeta.
  destruct (Z.leb_spec 0 i); [| lia].
  destruct (Z.ltb_spec i (Z.of_nat (length a))); [| lia]. reflexivity.
Qed.

Lemma take_in_range (a idx : list Z) :
  Forall (fun i => 0 <= i < Z.of_nat (length a)) idx ->
  Np.take a idx = Ok (map (fun i => nth (Z.to_nat i) a 0) idx).
Proof.
  induction 1 as [| i idx Hi _ IH]; [reflexivity |].
  cbn [Np.take map]. rewrite item_in_range by exact Hi. rewrite IH. reflexivity.
Qed.

#[local] Arguments Np.take : simpl never.

(** C4, as the code has it.  With [_fill_last_batch] set,
    [_remove_padded] returns the pair [(False, -1)].  Without it, on a
    reader-driven object whose shard ids index the initial shard sizes,
    it returns for every worker [w] the number
    [left[w] = batch_size - (counter - initial[shards_id[w]])], together
    with the array of the flags [left[w] < batch_size], one per worker
    (the caller takes their disjunction).  The object is unchanged.  For
    one worker over 7 samples with batches of 2, after the counter has
    been advanced for the fourth batch, it returns the flag [True] and
    [left = 1]. *)
Theorem remove_padded_result (s : Iter) :
  (_fill_last_batch s = true ->
   _remove_padded s = (Ok (PyBool false, PyInt (-1)), s))
  /\ (_fill_last_batch s = false ->
      forall r, _reader s = Some r ->
      Forall (fun i => 0 <= i < Z.of_nat (length (_shard_sizes_per_gpu_initial r)))
             (_shards_id r) ->
      let left :=
        map (fun i => batch_size s
                      - (_counter s
                         - nth (Z.to_nat i) (_shard_sizes_per_gpu_initial r) 0))
            (_shards_id r) in
      _remove_padded s
      = (Ok (NdBool (map (fun x => x <? batch_size s) left), NdInt left), s))
  /\ _remove_padded (with_counter 8 (it7 false false))
     = (Ok (NdBool [true], NdInt [1]), with_counter 8 (it7 false false)).
Proof.
  split; [| split].
  - intros F. unfold _remove_padded. run_method. now rewrite F.
  - intros F r R Hin left. subst left. unfold _remove_padded. run_method.
    rewrite F. simpl. rewrite R. simpl. rewrite R. simpl.
    rewrite take_in_range by exact Hin. simpl.
    rewrite !map_map. reflexivity.
  - reflexivity.
Qed.

Lemma remove_padded_result_witness :
  _remove_padded (it7 true false)
  = (Ok (PyBool false, PyInt (-1)), it7 true false)
  /\ _remove_padded (with_counter 6 (it7 false false))
     = (Ok (NdBool [false], NdInt [3]), with_counter 6 (it7 false false)).
Proof.
  split.
  - apply (remove_padded_result (it7 true false)). reflexivity.
  - apply (proj1 (proj2 (remove_padded_result (with_counter 6 (it7 false false))))
             eq_refl
             {| _size_no_pad := 7; _shards_num := 1;
                _is_stick_to_shard := false; _shards_id := [0];
                _counter_per_gpu := [0]; _shard_sizes_per_gpu := [7];
                _shard_sizes_per_gpu_initial := [7] |}
             eq_refl).
    constructor; [simpl; lia | constructor].
Defined.

(** The claim C4 fails where it says that nothing is returned for the
    remaining samples: with [_fill_last_batch] set the second component
    is the integer -1. *)
Lemma remove_padded_filling_is_not_none :
  _fill_last_batch (it7 true false) = true
  /\ fst (_remove_padded (it7 true false)) = Ok (PyBool false, PyInt (-1))
  /\ fst (_remove_padded (it7 true false)) <> Ok (PyBool false, PyNone).
Proof.
  split; [reflexivity |]. split; [reflexivity |]. discriminate.
Qed.

(** ** Uniformity checks of the constructor *)

Lemma disagree_forallb {A} (f : A -> Z) (x0 : A) (l : list A) :
  In x0 l -> disagree f l -> forallb (fun x => f x =? f x0) l = false.
Proof.
  intros H0 (x & y & Hx & Hy & N).
  destruct (forallb (fun x => f x =? f x0) l) eqn:E; [| reflexivity].
  rewrite forallb_forall in E.
  pose proof (E x Hx) as Ex. pose proof (E y Hy) as Ey.
  apply Z.eqb_eq in Ex, Ey. congruence.
Qed.

Lemma check_equality_disagree (metas : list ReaderMeta)
    (name : ReaderMeta -> Z) (msg : string) :
  metas <> [] -> disagree name metas ->
  check_equality_and_get metas name msg = Raise (AssertionError None).
Proof.
  intros Hne D. destruct metas as [| m0 rest]; [congruence |].
  unfold check_equality_and_get. simpl first_meta. cbv beta iota delta [rbind].
  rewrite (disagree_forallb name m0) by (simpl; auto). reflexivity.
Qed.

Lemma check_equality_result (metas : list ReaderMeta)
    (name : ReaderMeta -> Z) (msg : string) :
  metas <> [] ->
  check_equality_and_get metas name msg = Raise (AssertionError None)
  \/ exists v, check_equality_and_get metas name msg = Ok v.
Proof.
  intros Hne. destruct metas as [| m0 rest]; [congruence |].
  unfold check_equality_and_get. simpl first_meta. cbv beta iota delta [rbind].
  unfold assert, err_msg_gen.
  destruct (forallb _ _); [right; eauto | left; reflexivity].
Qed.

Lemma check_all_or_none_mixed (metas : list ReaderMeta)
    (name : ReaderMeta -> bool) (msg : string) :
  mixed name metas ->
  check_all_or_none_and_get metas metas name msg = Raise (AssertionError None).
Proof.
  intros (x & y & Hx & Hy & Tx & Fy). unfold check_all_or_none_and_get.
  assert (A : forallb name metas = false).
  { destruct (forallb name metas) eqn:E; [| reflexivity].
    rewrite forallb_forall in E. rewrite (E y Hy) in Fy. discriminate. }
  assert (B : existsb name metas = true) by (apply existsb_exists; eauto).
  rewrite A, B. reflexivity.
Qed.

Lemma check_all_or_none_result (metas : list ReaderMeta)
    (name : ReaderMeta -> bool) (msg : string) :
  metas <> [] ->
  check_all_or_none_and_get metas metas name msg = Raise (AssertionError None)
  \/ exists v, check_all_or_none_and_get metas metas name msg = Ok v.
Proof.
  intros Hne. destruct metas as [| m0 rest]; [congruence |].
  unfold check_all_or_none_and_get, assert, err_msg_gen.
  destruct (_ || _); [right; simpl; eauto | left; reflexivity].
Qed.

Lemma disagree_map {A B} (g : A -> B) (f : B -> Z) (l : list A) :
  disagree (fun x => f (g x)) l -> disagree f (map g l).
Proof.
  intros (x & y & Hx & Hy & N). exists (g x), (g y).
  repeat split; try (now apply in_map). exact N.
Qed.

Lemma mixed_map {A B} (g : A -> B) (f : B -> bool) (l : list A) :
  mixed (fun x => f (g x)) l -> mixed f (map g l).
Proof.
  intros (x & y & Hx & Hy & Tx & Fy). exists (g x), (g y).
  repeat split; try (now apply in_map); assumption.
Qed.

(** The reader-driven checks: a value on which the workers disagree, or
    a flag that only some of them set, stops the interrogation of the
    reader at one of its four assertions. *)
Lemma extract_rejects_mismatch (self : Iter) (n : string) :
  _reader_name self = Some n -> truthy (Some n) = true -> _pipes self <> [] ->
  disagree (fun p => epoch_size (reader_meta p n)) (_pipes self)
  \/ disagree (fun p => number_of_shards (reader_meta p n)) (_pipes self)
  \/ mixed (fun p => pad_last_batch (reader_meta p n)) (_pipes self)
  \/ mixed (fun p => stick_to_shard (reader_meta p n)) (_pipes self) ->
  _extract_from_reader_and_validate self = Raise (AssertionError None).
Proof.
  intros N T Hne D. unfold _extract_from_reader_and_validate. rewrite N, T.
  set (metas := map (fun p => reader_meta p n) (_pipes self)).
  assert (Mne : metas <> []).
  { subst metas. destruct (_pipes self); [congruence | discriminate]. }
  destruct (check_equality_result metas epoch_size "size value" Mne)
    as [-> | [v1 E1]]; [reflexivity |].
  destruct D as [D | D].
  { apply (disagree_map (fun p => reader_meta p n) epoch_size) in D.
    rewrite (check_equality_disagree metas epoch_size _ Mne D) in E1.
    discriminate. }
  rewrite E1. cbv beta iota delta [rbind].
  destruct (check_equality_result metas number_of_shards
              "`num_shards` argument set" Mne) as [-> | [v2 E2]];
    [reflexivity |].
  destruct D as [D | D].
  { apply (disagree_map (fun p => reader_meta p n) number_of_shards) in D.
    rewrite (check_equality_disagree metas number_of_shards _ Mne D) in E2.
    discriminate. }
  rewrite E2. cbv beta iota delta [rbind].
  destruct (check_all_or_none_result metas pad_last_batch
              "`pad_last_batch` argument set" Mne) as [-> | [v3 E3]];
    [reflexivity |].
  destruct D as [D | D].
  { apply (mixed_map (fun p => reader_meta p n) pad_last_batch) in D.
    rewrite (check_all_or_none_mixed metas pad_last_batch _ D) in E3.
    discriminate. }
  rewrite E3. cbv beta iota delta [rbind].
  apply (mixed_map (fun p => reader_meta p n) stick_to_shard) in D.
  rewrite (check_all_or_none_mixed metas stick_to_shard _ D). reflexivity.
Qed.

(** C10. Construction over a non-empty list of pipelines raises an
    assertion error, and so returns no iterator that could fail later,
    whenever two pipelines differ in [batch_size] (the assertion on the
    batch sizes, which comes first), and, when a reader name is given,
    whenever two pipelines differ in the reader's [epoch_size] or
    [number_of_shards], or one sets [pad_last_batch] or [stick_to_shard]
    and another does not; when the other arguments are valid the
    assertion that fails is then one of the four uniformity checks of the
    reader (whose message is lost in [err_msg_gen]). *)
Theorem construction_rejects_mismatch (pipelines : list Pipeline) (size : Z)
    (name : option string) (auto fill lbp : bool) :
  pipelines <> [] ->
  let reader_mismatch :=
    exists n, name = Some n /\ truthy name = true
      /\ (disagree (fun p => epoch_size (reader_meta p n)) pipelines
          \/ disagree (fun p => number_of_shards (reader_meta p n)) pipelines
          \/ mixed (fun p => pad_last_batch (reader_meta p n)) pipelines
          \/ mixed (fun p => stick_to_shard (reader_meta p n)) pipelines) in
  (disagree p_batch_size pipelines ->
   __init__ pipelines size name auto fill lbp
   = Raise (AssertionError
              (Some "All pipelines should have the same batch size set"%string)))
  /\ (reader_mismatch ->
      exists msg,
        __init__ pipelines size name auto fill lbp = Raise (AssertionError msg))
  /\ (reader_mismatch ->
      (forall p q, In p pipelines -> In q pipelines ->
                   p_batch_size p = p_batch_size q) ->
      size < 0 -> lbp = false ->
      __init__ pipelines size name auto fill lbp = Raise (AssertionError None)).
Proof.
  intros Hne reader_mismatch. subst reader_mismatch.
  destruct pipelines as [| p0 rest]; [congruence |].
  assert (Fwd : forall n, name = Some n -> truthy name = true ->
            disagree (fun p => epoch_size (reader_meta p n)) (p0 :: rest)
            \/ disagree (fun p => number_of_shards (reader_meta p n)) (p0 :: rest)
            \/ mixed (fun p => pad_last_batch (reader_meta p n)) (p0 :: rest)
            \/ mixed (fun p => stick_to_shard (reader_meta p n)) (p0 :: rest) ->
            forall a f l tr,
              _extract_from_reader_and_validate
                {| _num_gpus := length (p0 :: rest);
                   batch_size := p_batch_size p0; _size := size;
                   _auto_reset := a; _fill_last_batch := f;
                   _last_batch_padded := l; _pipes := p0 :: rest;
                   _counter := 0; _reader_name := name; _reader := None;
                   trace := tr |} = Raise (AssertionError None)).
  { intros n -> T D a f l tr.
    apply (extract_rejects_mismatch _ n); simpl;
      [reflexivity | exact T | discriminate | exact D]. }
  split; [| split].
  - intros D. unfold __init__. cbv beta iota delta [rbind].
    rewrite (disagree_forallb p_batch_size p0) by (simpl; auto).
    reflexivity.
  - intros (n & Nm & T & D). unfold __init__. cbv beta iota delta [rbind].
    unfold assert.
    repeat match goal with
           | |- context [if ?c then Ok tt else Raise (AssertionError ?m)] =>
               destruct c; [| eexists; reflexivity]
           end.
    exists None. now apply (Fwd n).
  - intros (n & Nm & T & D) Hb Hs Hl. unfold __init__.
    cbv beta iota delta [rbind].
    assert (A1 : forallb (fun p => p_batch_size p =? p_batch_size p0)
                   (p0 :: rest) = true).
    { apply forallb_forall. intros p Hp. apply Z.eqb_eq.
      apply Hb; simpl; auto. }
    rewrite A1, T. subst lbp.
    destruct (Z.eqb_spec size 0); [lia |].
    destruct (Z.ltb_spec size 0); [| lia].
    destruct (Z.ltb_spec 0 size); [lia |]. simpl.
    rewrite orb_true_r. simpl. now apply (Fwd n).
Qed.

Lemma construction_rejects_mismatch_witness :
  __init__ [mk_pipe 2 (mk_meta 1 7 7 0 false false);
            mk_pipe 3 (mk_meta 1 7 7 0 false false)]
    7 None false true false
  = Raise (AssertionError
             (Some "All pipelines should have the same batch size set"%string))
  /\ __init__ [mk_pipe 2 (mk_meta 2 7 8 0 true false);
               mk_pipe 2 (mk_meta 2 7 8 1 false false)]
       (-1) (Some "Reader"%string) false true false
     = Raise (AssertionError None).
Proof.
  split.
  - apply construction_rejects_mismatch; [discriminate |].
    exists (mk_pipe 2 (mk_meta 1 7 7 0 false false)),
           (mk_pipe 3 (mk_meta 1 7 7 0 false false)).
    simpl. repeat split; auto. discriminate.
  - apply construction_rejects_mismatch; [discriminate | | | lia | reflexivity].
    + exists "Reader"%string. split; [reflexivity |]. split; [reflexivity |].
      right. right. left.
      exists (mk_pipe 2 (mk_meta 2 7 8 0 true false)),
             (mk_pipe 2 (mk_meta 2 7 8 1 false false)).
      simpl. repeat split; auto.
    + intros p q [<- | [<- | []]] [<- | [<- | []]]; reflexivity.
Defined.

(** ** The counter after a reset at the boundary *)

Lemma reset_counter_manual (s : Iter) :
  well_formed s = true -> truthy (_reader_name s) = false ->
  _fill_last_batch s = true -> _last_batch_padded s = false ->
  reset_counter s = (Ok tt, with_counter (_counter s mod _size s) s).
Proof.
  intros W T F P.
  assert (Z0 : _size s <> 0).
  { unfold well_formed in W. rewrite T, F, P in W. simpl in W.
    apply negb_true_iff in W. lia. }
  unfold reset_counter. run_method. rewrite F, P. simpl. rewrite T. simpl.
  unfold py_mod. destruct (Z.eqb_spec (_size s) 0); [contradiction |].
  reflexivity.
Qed.

(** C1. At the boundary, with [_fill_last_batch] set and
    [_last_batch_padded] not set, the first block of [reset] rebases the
    counter as follows.  Reader-driven: it subtracts the minimum of
    [_counter_per_gpu] from the counter, adds the result to every entry
    of [_counter_per_gpu], subtracts [_shard_sizes_per_gpu] entrywise,
    and sets the counter to the minimum of the new [_counter_per_gpu];
    the rest of [reset] starts from that object.  Otherwise the counter
    becomes [_counter mod _size], which is also its value when [reset]
    returns. *)
Theorem reset_rebases_counter (s : Iter) :
  well_formed s = true -> at_boundary s ->
  _fill_last_batch s = true -> _last_batch_padded s = false ->
  (truthy (_reader_name s) = true ->
   exists r,
     _reader s = Some r
     /\ let rebased_counter := _counter s - lmin (_counter_per_gpu r) in
        let added := map (fun x => x + rebased_counter) (_counter_per_gpu r) in
        let cpw := Np.map2 Z.sub added (_shard_sizes_per_gpu r) in
        let s1 := with_counter (lmin cpw)
                    (with_reader (Some (with_counter_per_gpu cpw r)) s) in
        py_min (_counter_per_gpu r) = Ok (lmin (_counter_per_gpu r))
        /\ py_min cpw = Ok (lmin cpw)
        /\ reset_counter s = (Ok tt, s1)
        /\ reset s = (Ok tt, primed (resized (rotated s1))))
  /\ (truthy (_reader_name s) = false ->
      reset_counter s = (Ok tt, with_counter (_counter s mod _size s) s)
      /\ reset s = (Ok tt, primed (with_counter (_counter s mod _size s) s))
      /\ _counter (snd (reset s)) = _counter s mod _size s).
Proof.
  intros W B F P. unfold at_boundary in B. split; intros T.
  - destruct (well_formed_reader s W T) as (r & R & N & Lc & Ls & _).
    exists r. split; [exact R |]. cbv zeta.
    assert (E : rebased s
                = with_counter
                    (lmin (Np.map2 Z.sub
                             (map (fun x => x + (_counter s - lmin (_counter_per_gpu r)))
                                (_counter_per_gpu r))
                             (_shard_sizes_per_gpu r)))
                    (with_reader
                       (Some (with_counter_per_gpu
                                (Np.map2 Z.sub
                                   (map (fun x => x + (_counter s - lmin (_counter_per_gpu r)))
                                      (_counter_per_gpu r))
                                   (_shard_sizes_per_gpu r)) r)) s)).
    { unfold rebased. rewrite R. reflexivity. }
    rewrite <- E. split; [| split; [| split]].
    + apply py_min_lmin, length_nonempty. lia.
    + apply py_min_lmin, length_nonempty.
      rewrite map2_length; rewrite length_map; lia.
    + now apply reset_counter_reader.
    + rewrite reset_at_boundary by (try assumption; now left).
      unfold after_reset. now rewrite T, F, P.
  - assert (E : reset s = (Ok tt, primed (with_counter (_counter s mod _size s) s))).
    { rewrite reset_at_boundary by (try assumption; now left).
      unfold after_reset. now rewrite T, F, P. }
    split; [now apply reset_counter_manual |]. split; [exact E |].
    rewrite E. reflexivity.
Qed.

Lemma reset_rebases_counter_witness :
  reset_counter (with_counter 4 it3)
  = (Ok tt,
     with_counter 0
       (with_reader
          (Some {| _size_no_pad := 10; _shards_num := 3;
                   _is_stick_to_shard := false; _shards_id := [0; 1; 2];
                   _counter_per_gpu := [1; 1; 0];
                   _shard_sizes_per_gpu := [3; 3; 4];
                   _shard_sizes_per_gpu_initial := [3; 3; 4] |})
          (with_counter 4 it3)))
  /\ _counter (snd (reset (with_counter 8 it7_manual))) = 1.
Proof.
  split.
  - destruct (proj1 (reset_rebases_counter (with_counter 4 it3)
                       eq_refl ltac:(vm_compute; discriminate) eq_refl eq_refl)
                eq_refl) as (r & R & _ & _ & E & _).
    injection R as <-. exact E.
  - apply (proj2 (reset_rebases_counter (with_counter 8 it7_manual)
                    eq_refl ltac:(vm_compute; discriminate) eq_refl eq_refl)
             eq_refl).
Defined.

(** ** The length of the next epoch *)



(** ** The sizes of the shards *)

Lemma map2_map (f : Z -> Z -> Z) (g h : Z -> Z) (l : list Z) :
  Np.map2 f (map g l) (map h l) = map (fun i => f (g i) (h i)) l.
Proof.
  unfold Np.map2. induction l as [| x l IH]; [reflexivity |].
  simpl. now rewrite IH.
Qed.

Lemma calculate_shard_sizes_map (size_no_pad shards_num : Z) (l : list Z) :
  _calculate_shard_sizes size_no_pad shards_num l
  = map (fun i => (i + 1) * size_no_pad / shards_num
                  - i * size_no_pad / shards_num) l.
Proof. unfold _calculate_shard_sizes. apply map2_map. Qed.

Lemma zsum_app (a b : list Z) : zsum (a ++ b) = zsum a + zsum b.
Proof.
  unfold zsum. induction a as [| x a IH]; simpl; [reflexivity |].
  rewrite IH. lia.
Qed.

(** The sizes of the first [k] shards add up to the end of shard [k-1]. *)
Lemma zsum_telescope (F : Z -> Z) (k : nat) :
  zsum (map (fun i => F (i + 1) - F i) (map Z.of_nat (seq 0 k)))
  = F (Z.of_nat k) - F 0.
Proof.
  induction k as [| k IH]; [simpl; lia |].
  rewrite seq_S, !map_app, zsum_app, IH.
  cbn [Nat.add map zsum fold_right].
  rewrite Nat2Z.inj_succ. unfold Z.succ. lia.
Qed.

(** A shard has the floor of the average or one more. *)
Lemma shard_size_bounds (size_no_pad shards_num i : Z) :
  1 <= shards_num ->
  size_no_pad / shards_num
  <= (i + 1) * size_no_pad / shards_num - i * size_no_pad / shards_num
  <= size_no_pad / shards_num + 1.
Proof.
  intros N.
  pose proof (Z.div_mod (i * size_no_pad) shards_num ltac:(lia)) as E1.
  pose proof (Z.mod_pos_bound (i * size_no_pad) shards_num ltac:(lia)) as B1.
  pose proof (Z.div_mod size_no_pad shards_num ltac:(lia)) as E2.
  pose proof (Z.mod_pos_bound size_no_pad shards_num ltac:(lia)) as B2.
  pose proof (Z.div_mod ((i + 1) * size_no_pad) shards_num ltac:(lia)) as E3.
  pose proof (Z.mod_pos_bound ((i + 1) * size_no_pad) shards_num ltac:(lia)) as B3.
  split; nia.
Qed.




(** ** Rotation of the shards *)












(** ** The length of the epoch is a multiple of the batch size *)

Lemma lmin_unique (l : list Z) (m : Z) :
  In m l -> (forall y, In y l -> m <= y) -> lmin l = m.
Proof.
  intros Hin Hle.
  assert (Hne : l <> []) by (intros ->; contradiction).
  pose proof (lmin_le l m Hin). pose proof (Hle _ (lmin_in l Hne)). lia.
Qed.

Lemma lmax_unique (l : list Z) (m : Z) :
  In m l -> (forall y, In y l -> y <= m) -> lmax l = m.
Proof.
  intros Hin Hle.
  assert (Hne : l <> []) by (intros ->; contradiction).
  pose proof (lmax_ge l m Hin). pose proof (Hle _ (lmax_in l Hne)). lia.
Qed.

Lemma lmin_repeat_zero (n : nat) : (1 <= n)%nat -> lmin (repeat 0 n) = 0.
Proof.
  intros N. apply lmin_unique.
  - destruct n; [lia | now left].
  - intros y Hy. apply repeat_spec in Hy. lia.
Qed.

Lemma map2_sub_zeros (l : list Z) :
  Np.map2 Z.sub l (repeat 0 (length l)) = l.
Proof.
  unfold Np.map2. induction l as [| x l IH]; [reflexivity |].
  cbn [length repeat combine map fst snd]. rewrite IH. f_equal. lia.
Qed.

(** The rebased counters are the distance of every worker to the end of
    the epoch it has just read. *)
Lemma rebase_as_remaining (cpg sizes : list Z) (d : Z) :
  Np.map2 Z.sub (map (fun x => x + d) cpg) sizes
  = map (fun y => d - y) (Np.map2 Z.sub sizes cpg).
Proof.
  unfold Np.map2. revert sizes.
  induction cpg as [| x cpg IH]; intros [| y sizes]; try reflexivity.
  cbn [map combine fst snd]. rewrite IH. f_equal. lia.
Qed.

Lemma lmin_of_remaining (l : list Z) (d : Z) :
  l <> [] -> lmin (map (fun y => d - y) l) = d - lmax l.
Proof.
  intros Hne. apply lmin_unique.
  - apply in_map_iff. exists (lmax l). split; [reflexivity | now apply lmax_in].
  - intros y Hy. apply in_map_iff in Hy. destruct Hy as (x & <- & Hx).
    pose proof (lmax_ge l x Hx). lia.
Qed.

(** The worker that is furthest ahead still has more than minus one
    batch to read in shards of non-negative size. *)
Lemma remaining_above_minus_batch (sizes cpg : list Z) (bs : Z) :
  length sizes = length cpg -> cpg <> [] ->
  Forall (fun x => 0 <= x) sizes -> lmin cpg < bs ->
  - bs < lmax (Np.map2 Z.sub sizes cpg).
Proof.
  intros L Hne Pos Hmin.
  destruct (in_combine_right sizes cpg (lmin cpg) L (lmin_in cpg Hne))
    as [x Hx].
  assert (Hin : In (x - lmin cpg) (Np.map2 Z.sub sizes cpg))
    by (apply in_map2; eauto).
  pose proof (lmax_ge _ _ Hin).
  apply in_combine_l in Hx. rewrite Forall_forall in Pos.
  specialize (Pos x Hx). lia.
Qed.

Lemma boundary_counter (bs size c c0 : Z) :
  1 <= bs -> (bs | size) -> (bs | c - c0) -> 0 <= c0 < bs ->
  size <= c < size + bs -> c - c0 = size.
Proof.
  intros B [j ->] [k E] R0 Rc.
  assert (k = j) by nia. subst k. lia.
Qed.

Lemma forall_roll (P : Z -> Prop) (l : list Z) :
  Forall P l -> Forall P (Np.roll l).
Proof.
  intros H. eapply Permutation_Forall; [| exact H].
  symmetry. apply roll_perm.
Qed.

Lemma lmax_nonneg (l : list Z) :
  l <> [] -> Forall (fun x => 0 <= x) l -> 0 <= lmax l.
Proof.
  intros Hne H. rewrite Forall_forall in H. apply H. now apply lmax_in.
Qed.

(** The arithmetic of one reset at the boundary. *)
Lemma rebase_step (cpg sizes sizes1 : list Z) (bs c size : Z) :
  1 <= bs -> length cpg = length sizes -> length sizes1 = length cpg ->
  cpg <> [] -> Forall (fun x => 0 <= x) sizes1 ->
  0 <= lmin cpg < bs -> (bs | c - lmin cpg) -> size <= c < size + bs ->
  size = spec_effective_size sizes cpg bs ->
  let cpg' := spec_rebase_per_worker c cpg sizes in
  length cpg' = length cpg
  /\ 0 <= lmin cpg' < bs
  /\ 0 <= spec_effective_size sizes1 cpg' bs.
Proof.
  intros B L L1 Hne Pos R0 Dv Rc Sz cpg'.
  assert (Len : length cpg' = length cpg).
  { subst cpg'. unfold spec_rebase_per_worker.
    rewrite map2_length; rewrite length_map; [reflexivity | exact L]. }
  assert (Hd : c - lmin cpg = size).
  { apply (boundary_counter bs); try assumption.
    rewrite Sz. apply ceil_quot_divides. }
  assert (Hrn : Np.map2 Z.sub sizes cpg <> []).
  { apply length_nonempty. rewrite map2_length by (symmetry; exact L).
    destruct sizes; [destruct cpg; [congruence | discriminate] | simpl; lia]. }
  assert (Hmin : lmin cpg' = size - lmax (Np.map2 Z.sub sizes cpg)).
  { subst cpg'. unfold spec_rebase_per_worker. rewrite Hd.
    rewrite rebase_as_remaining. now apply lmin_of_remaining. }
  pose proof (ceil_quot_bounds (lmax (Np.map2 Z.sub sizes cpg)) bs ltac:(lia))
    as Bd.
  unfold spec_effective_size in Sz. rewrite <- Sz in Bd.
  split; [exact Len |]. split; [lia |].
  unfold spec_effective_size. apply ceil_quot_nonneg; [lia |].
  apply remaining_above_minus_batch; try assumption.
  - congruence.
  - intros E. rewrite E in Len. destruct cpg; [congruence | discriminate].
  - lia.
Qed.

#[local] Arguments spec_effective_size : simpl never.
#[local] Arguments spec_rebase_per_worker : simpl never.
#[local] Arguments ceil_quot : simpl never.

(** Moving to the next shard changes the shard ids only. *)
Lemma rotated_fields (s : Iter) (r : ReaderAttrs) :
  _reader s = Some r ->
  exists r',
    _reader (rotated s) = Some r'
    /\ _counter_per_gpu r' = _counter_per_gpu r
    /\ _shard_sizes_per_gpu r' = _shard_sizes_per_gpu r
    /\ _shards_num r' = _shards_num r
    /\ _is_stick_to_shard r' = _is_stick_to_shard r
    /\ _reader_name (rotated s) = _reader_name s
    /\ _last_batch_padded (rotated s) = _last_batch_padded s
    /\ _fill_last_batch (rotated s) = _fill_last_batch s
    /\ batch_size (rotated s) = batch_size s
    /\ _counter (rotated s) = _counter s
    /\ _size (rotated s) = _size s.
Proof.
  intros R. unfold rotated. rewrite R.
  destruct (_is_stick_to_shard r) eqn:St.
  - exists r. rewrite R. repeat split. exact St.
  - eexists. split; [reflexivity |]. repeat split. exact St.
Qed.

Lemma epoch_inv_resized (s1 : Iter) (r1 : ReaderAttrs) :
  truthy (_reader_name s1) = true -> _last_batch_padded s1 = false ->
  1 <= batch_size s1 -> _reader s1 = Some r1 -> 1 <= _shards_num r1 ->
  length (_counter_per_gpu r1) = Z.to_nat (_shards_num r1) ->
  length (_shard_sizes_per_gpu r1) = Z.to_nat (_shards_num r1) ->
  Forall (fun x => 0 <= x) (_shard_sizes_per_gpu r1) ->
  0 <= lmin (_counter_per_gpu r1) < batch_size s1 ->
  _counter s1 = lmin (_counter_per_gpu r1) ->
  0 <= spec_effective_size
         (if _is_stick_to_shard r1 then _shard_sizes_per_gpu r1
          else Np.roll (_shard_sizes_per_gpu r1))
         (_counter_per_gpu r1) (batch_size s1) ->
  epoch_inv (resized s1).
Proof.
  intros T P B R N Lc Ls Pos R0 C Snn. unfold resized. rewrite R.
  set (sizes1 := if _is_stick_to_shard r1 then _shard_sizes_per_gpu r1
                 else Np.roll (_shard_sizes_per_gpu r1)) in *.
  assert (L1 : length sizes1 = Z.to_nat (_shards_num r1)).
  { subst sizes1. destruct (_is_stick_to_shard r1);
      [| rewrite roll_length]; exact Ls. }
  assert (Pos1 : Forall (fun x => 0 <= x) sizes1).
  { subst sizes1. destruct (_is_stick_to_shard r1);
      [exact Pos | now apply forall_roll]. }
  destruct (Z.eqb_spec (spec_effective_size sizes1 (_counter_per_gpu r1)
                          (batch_size s1)) 0) as [E0 | E0].
  - assert (Lr : length (Np.roll sizes1) = Z.to_nat (_shards_num r1))
      by now rewrite roll_length.
    assert (Hz : spec_effective_size (Np.roll sizes1)
                   (repeat 0 (Z.to_nat (_shards_num r1))) (batch_size s1)
                 = ceil_quot (lmax (Np.roll sizes1)) (batch_size s1)
                   * batch_size s1).
    { unfold spec_effective_size. rewrite <- Lr at 1.
      now rewrite map2_sub_zeros. }
    assert (Hnn : 0 <= ceil_quot (lmax (Np.roll sizes1)) (batch_size s1)
                       * batch_size s1).
    { apply ceil_quot_nonneg; [lia |].
      assert (0 <= lmax (Np.roll sizes1)); [| lia].
      apply lmax_nonneg; [apply length_nonempty; lia | now apply forall_roll]. }
    unfold epoch_inv. cbn.
    split; [exact T |]. split; [exact P |]. split; [exact B |].
    split; [apply ceil_quot_divides |]. split; [exact Hnn |].
    eexists. split; [reflexivity |]. cbn.
    split; [exact N |]. split; [now rewrite repeat_length |].
    split; [exact Lr |]. split; [now apply forall_roll |].
    intros _. rewrite lmin_repeat_zero by lia.
    split; [lia |]. split; [lia |].
    split; [exists 0; lia |]. split; [lia |]. now rewrite Hz.
  - unfold epoch_inv. cbn.
    split; [exact T |]. split; [exact P |]. split; [exact B |].
    split; [apply ceil_quot_divides |]. split; [exact Snn |].
    eexists. split; [reflexivity |]. cbn.
    split; [exact N |]. split; [exact Lc |].
    split; [exact L1 |]. split; [exact Pos1 |].
    intros _. split; [exact R0 |]. split; [lia |].
    split; [exists 0; lia |]. split; [lia |]. reflexivity.
Qed.

Lemma epoch_inv_after_reset (s : Iter) :
  epoch_inv s -> _size s <= _counter s -> epoch_inv (after_reset s).
Proof.
  intros (T & P & B & Dv & S0 & r & R & N & Lc & Ls & Pos & Fill) Bd.
  unfold after_reset. rewrite T, P.
  destruct (_fill_last_batch s) eqn:F; cbn [andb negb].
  - destruct (Fill eq_refl) as (R0 & Ge & Dc & Lt & Sz).
    set (sizes1 := if _is_stick_to_shard r then _shard_sizes_per_gpu r
                   else Np.roll (_shard_sizes_per_gpu r)).
    assert (L1 : length sizes1 = length (_counter_per_gpu r)).
    { subst sizes1. destruct (_is_stick_to_shard r);
        [| rewrite roll_length]; lia. }
    assert (Pos1 : Forall (fun x => 0 <= x) sizes1).
    { subst sizes1. destruct (_is_stick_to_shard r);
        [exact Pos | now apply forall_roll]. }
    assert (Hne : _counter_per_gpu r <> [])
      by (apply length_nonempty; lia).
    destruct (rebase_step (_counter_per_gpu r) (_shard_sizes_per_gpu r)
                sizes1 (batch_size s) (_counter s) (_size s)
                B ltac:(lia) L1 Hne Pos1 R0 Dc ltac:(lia) Sz)
      as (Len & Rmin & Snn).
    assert (R1 : _reader (rebased s)
                 = Some (with_counter_per_gpu
                           (spec_rebase_per_worker (_counter s)
                              (_counter_per_gpu r) (_shard_sizes_per_gpu r)) r))
      by (unfold rebased; rewrite R; reflexivity).
    assert (C1 : _counter (rebased s)
                 = lmin (spec_rebase_per_worker (_counter s)
                           (_counter_per_gpu r) (_shard_sizes_per_gpu r)))
      by (unfold rebased; rewrite R; reflexivity).
    assert (K : _reader_name (rebased s) = _reader_name s
                /\ _last_batch_padded (rebased s) = _last_batch_padded s
                /\ batch_size (rebased s) = batch_size s)
      by (unfold rebased; rewrite R; repeat split).
    destruct K as (K1 & K2 & K3).
    destruct (rotated_fields _ _ R1)
      as (r2 & R2 & Ec & Es & En & Est & Q1 & Q2 & _ & Q4 & Q5 & _).
    cbn in Ec, Es, En, Est.
    apply (epoch_inv_resized _ r2); rewrite ?Q1, ?Q2, ?Q4, ?Q5, ?K1, ?K2, ?K3,
      ?Ec, ?Es, ?En, ?Est; try assumption; try lia.
  - unfold epoch_inv.
    destruct (rotated_fields (with_counter 0 s) r R)
      as (r2 & R2 & Ec & Es & En & Est & Q1 & Q2 & Q3 & Q4 & Q5 & Q6).
    rewrite Q1, Q2, Q3, Q4, Q6. cbn.
    split; [exact T |]. split; [exact P |]. split; [exact B |].
    split; [exact Dv |]. split; [exact S0 |].
    exists r2. rewrite Ec, Es, En. split; [exact R2 |].
    split; [exact N |]. split; [exact Lc |]. split; [exact Ls |].
    split; [exact Pos |]. rewrite F. discriminate.
Qed.

Lemma zsum_le (l : list Z) (b : Z) :
  (forall x, In x l -> x <= b) -> zsum l <= Z.of_nat (length l) * b.
Proof.
  induction l as [| x l IH]; intros H; [simpl; lia |].
  cbn [zsum fold_right length]. fold (zsum l).
  pose proof (H x (or_introl eq_refl)).
  assert (zsum l <= Z.of_nat (length l) * b)
    by (apply IH; intros y Hy; apply H; now right).
  lia.
Qed.

Lemma shard_size_le_ceil (size_no_pad shards_num i : Z) :
  1 <= shards_num ->
  (i + 1) * size_no_pad / shards_num - i * size_no_pad / shards_num
  <= ceil_quot size_no_pad shards_num.
Proof.
  intros N.
  pose proof (ceil_quot_bounds size_no_pad shards_num ltac:(lia)) as Bd.
  assert ((i + 1) * size_no_pad / shards_num
          <= (i * size_no_pad + ceil_quot size_no_pad shards_num * shards_num)
             / shards_num)
    by (apply Z.div_le_mono; lia).
  rewrite Z.div_add in H by lia. lia.
Qed.

(** The biggest shard has the ceiling of the average. *)
Lemma lmax_shard_sizes (size_no_pad shards_num : Z) :
  1 <= shards_num ->
  lmax (_calculate_shard_sizes size_no_pad shards_num (Np.arange shards_num))
  = ceil_quot size_no_pad shards_num.
Proof.
  intros N.
  set (sizes := _calculate_shard_sizes size_no_pad shards_num
                  (Np.arange shards_num)).
  assert (Len : length sizes = Z.to_nat shards_num)
    by (subst sizes; now rewrite calculate_shard_sizes_length, arange_length).
  assert (Hne : sizes <> []) by (apply length_nonempty; lia).
  assert (Up : forall x, In x sizes -> x <= ceil_quot size_no_pad shards_num).
  { intros x Hx. subst sizes. rewrite calculate_shard_sizes_map in Hx.
    apply in_map_iff in Hx. destruct Hx as (i & <- & _).
    now apply shard_size_le_ceil. }
  assert (Sum : zsum sizes = size_no_pad).
  { subst sizes. rewrite calculate_shard_sizes_map. unfold Np.arange.
    rewrite (zsum_telescope (fun i => i * size_no_pad / shards_num)).
    rewrite Z2Nat.id by lia. cbv beta.
    rewrite (Z.mul_comm shards_num size_no_pad), Z.div_mul by lia.
    rewrite Z.mul_0_l, Z.div_0_l by lia. lia. }
  pose proof (Up _ (lmax_in sizes Hne)) as Le.
  pose proof (zsum_le sizes (lmax sizes) (lmax_ge sizes)) as Ub.
  rewrite Sum, Len, Z2Nat.id in Ub by lia.
  pose proof (ceil_quot_bounds size_no_pad shards_num ltac:(lia)) as Bd.
  destruct (Z.eq_dec (lmax sizes) (ceil_quot size_no_pad shards_num));
    [assumption | exfalso; nia].
Qed.

Lemma shard_sizes_nonneg (size_no_pad shards_num : Z) :
  1 <= shards_num -> 0 <= size_no_pad ->
  Forall (fun x => 0 <= x)
    (_calculate_shard_sizes size_no_pad shards_num (Np.arange shards_num)).
Proof.
  intros N S. apply Forall_forall. intros x Hx.
  rewrite calculate_shard_sizes_map in Hx.
  apply in_map_iff in Hx. destruct Hx as (i & <- & _).
  pose proof (shard_size_bounds size_no_pad shards_num i N).
  pose proof (Z.div_pos size_no_pad shards_num ltac:(lia) ltac:(lia)). lia.
Qed.

(** Construction establishes the invariant of the epochs. *)
Lemma init_epoch_inv (pipelines : list Pipeline) (size : Z)
    (name : option string) (auto fill lbp : bool) (s0 : Iter) :
  __init__ pipelines size name auto fill lbp = Ok s0 ->
  truthy name = true -> _last_batch_padded s0 = false ->
  1 <= batch_size s0 ->
  (forall r, _reader s0 = Some r -> 0 <= _size_no_pad r) ->
  epoch_inv s0.
Proof.
  intros H T P B S. apply init_ok in H.
  destruct H as (p0 & rest & -> & _ & _ & _ & _ & H). simpl in H.
  destruct (truthy_some name T) as [n ->].
  apply extract_reader_ok with (name := n) in H; [| reflexivity | exact T].
  destruct H as (m0 & metas & _ & N & _ & _ & ->). cbn in *.
  specialize (S _ eq_refl). cbn in S. rewrite P.
  set (sizes := _calculate_shard_sizes (epoch_size m0) (number_of_shards m0)
                  (Np.arange (number_of_shards m0))).
  assert (Len : length sizes = Z.to_nat (number_of_shards m0))
    by (subst sizes; now rewrite calculate_shard_sizes_length, arange_length).
  assert (Sz : spec_initial_size false (epoch_size_padded m0) (epoch_size m0)
                 (number_of_shards m0) (p_batch_size p0)
               = spec_effective_size sizes
                   (repeat 0 (Z.to_nat (number_of_shards m0))) (p_batch_size p0)).
  { unfold spec_initial_size, spec_effective_size.
    rewrite <- Len, map2_sub_zeros. subst sizes.
    now rewrite lmax_shard_sizes. }
  assert (Nn : 0 <= spec_initial_size false (epoch_size_padded m0)
                      (epoch_size m0) (number_of_shards m0) (p_batch_size p0)).
  { unfold spec_initial_size. apply ceil_quot_nonneg; [lia |].
    pose proof (ceil_quot_bounds (epoch_size m0) (number_of_shards m0)
                  ltac:(lia)).
    assert (0 <= ceil_quot (epoch_size m0) (number_of_shards m0)) by nia.
    lia. }
  unfold epoch_inv. cbn.
  split; [exact T |]. split; [reflexivity |]. split; [exact B |].
  split; [apply ceil_quot_divides |]. split; [exact Nn |].
  eexists. split; [reflexivity |]. cbn.
  split; [exact N |]. split; [now rewrite repeat_length |].
  split; [exact Len |]. split; [now apply shard_sizes_nonneg |].
  intros _. rewrite lmin_repeat_zero by lia.
  split; [lia |]. split; [lia |]. split; [exists 0; lia |].
  split; [lia |]. exact Sz.
Qed.

Lemma epoch_inv_trace (s : Iter) (t : list event) :
  epoch_inv s -> epoch_inv (with_trace t s).
Proof. intros H. exact H. Qed.

Lemma epoch_inv_well_formed (s : Iter) : epoch_inv s -> well_formed s = true.
Proof.
  intros (T & P & B & _ & _ & r & R & N & Lc & Ls & _).
  unfold well_formed. rewrite T, R, Lc, Ls, !Nat.eqb_refl.
  destruct (Z.leb_spec 1 (_shards_num r)); [| lia].
  destruct (Z.eqb_spec (batch_size s) 0); [lia |].
  now rewrite orb_true_r.
Qed.

Lemma epoch_inv_draw (s : Iter) :
  epoch_inv s -> _counter s < _size s -> epoch_inv (draw_batch s).
Proof.
  intros (T & P & B & Dv & S0 & r & R & N & Lc & Ls & Pos & Fill) C.
  unfold epoch_inv, draw_batch. cbn.
  split; [exact T |]. split; [exact P |]. split; [exact B |].
  split; [exact Dv |]. split; [exact S0 |].
  exists r. split; [exact R |]. split; [exact N |]. split; [exact Lc |].
  split; [exact Ls |]. split; [exact Pos |].
  intros F. destruct (Fill F) as (R0 & Ge & [k Dk] & Lt & Sz).
  split; [exact R0 |]. split; [lia |].
  split; [exists (k + 1); lia |]. split; [lia | exact Sz].
Qed.

Lemma epoch_inv_reset (s : Iter) (r : res unit) (s' : Iter) :
  epoch_inv s -> reset s = (r, s') -> epoch_inv s'.
Proof.
  intros I E. pose proof (epoch_inv_well_formed s I) as W.
  destruct (Z_le_gt_dec (_size s) (_counter s)) as [B | B].
  - rewrite reset_at_boundary in E by (try assumption; now left).
    injection E as _ <-. unfold primed. apply epoch_inv_trace.
    now apply epoch_inv_after_reset.
  - destruct I as (T & P & Bs & Dv & S0 & I).
    rewrite reset_premature in E by lia. injection E as _ <-.
    unfold epoch_inv. cbn. tauto.
Qed.

Lemma check_stop_state (s : Iter) :
  snd (_check_stop s) = s \/ snd (_check_stop s) = snd (reset s).
Proof.
  unfold _check_stop. run_method.
  destruct ((_size s <=? _counter s) && (0 <? _size s)); [| now left].
  simpl. destruct (_auto_reset s); simpl; [| now left].
  right. destruct (reset s) as [[u | e] s']; reflexivity.
Qed.

Lemma epoch_inv_check_stop (s : Iter) (r : res unit) (s' : Iter) :
  epoch_inv s -> _check_stop s = (r, s') -> epoch_inv s'.
Proof.
  intros I E. destruct (check_stop_state s) as [H | H];
    rewrite E in H; simpl in H; subst s'; [exact I |].
  apply (epoch_inv_reset s (fst (reset s)) (snd (reset s)) I).
  now destruct (reset s).
Qed.

(** C7, as the code has it.  For an iterator constructed with a reader
    that does not pad the last batch, a batch size of at least 1 and a
    non-negative epoch size, [_size] is a non-negative multiple of
    [batch_size] after construction and in every state reached from it by
    batch draws within the epoch, [reset] and [_check_stop]. *)
Theorem effective_size_multiple_of_batch (pipelines : list Pipeline)
    (size : Z) (name : option string) (auto fill lbp : bool) (s0 s : Iter) :
  __init__ pipelines size name auto fill lbp = Ok s0 ->
  truthy name = true -> _last_batch_padded s0 = false ->
  1 <= batch_size s0 ->
  (forall r, _reader s0 = Some r -> 0 <= _size_no_pad r) ->
  reachable s0 s ->
  0 <= _size s /\ (batch_size s | _size s).
Proof.
  intros H T P B S Reach.
  pose proof (init_epoch_inv _ _ _ _ _ _ _ H T P B S) as I0.
  assert (I : epoch_inv s).
  { induction Reach as [| s _ IH C | s r s' _ IH E | s r s' _ IH E].
    - exact I0.
    - now apply epoch_inv_draw.
    - now apply (epoch_inv_reset s r s').
    - now apply (epoch_inv_check_stop s r s'). }
  destruct I as (_ & _ & _ & Dv & S0 & _). auto.
Qed.

Lemma effective_size_multiple_of_batch_witness :
  0 <= _size (snd (reset (draw_batch it3)))
  /\ (batch_size (snd (reset (draw_batch it3)))
      | _size (snd (reset (draw_batch it3)))).
Proof.
  apply (effective_size_multiple_of_batch
           [mk_pipe 4 (mk_meta 3 10 12 0 false false);
            mk_pipe 4 (mk_meta 3 10 12 1 false false);
            mk_pipe 4 (mk_meta 3 10 12 2 false false)] (-1)
           (Some "Reader"%string) false true false it3).
  - reflexivity.
  - reflexivity.
  - reflexivity.
  - vm_compute. discriminate.
  - intros r R. injection R as <-. vm_compute. discriminate.
  - apply (reach_reset it3 (draw_batch it3) (Ok tt)).
    + apply reach_draw; [apply reach_init | reflexivity].
    + vm_compute. reflexivity.
Defined.

(** The claim C7 fails for a reader that pads the last batch: over 7
    samples in one shard with batches of 2, the length of the epoch is
    [epoch_size_padded // shards_num = 7]. *)
Lemma padded_size_is_not_a_multiple :
  __init__ [mk_pipe 2 (mk_meta 1 7 7 0 true false)] (-1)
    (Some "Reader"%string) false true false = Ok it7_padded
  /\ _fill_last_batch it7_padded = true
  /\ batch_size it7_padded = 2
  /\ _size it7_padded = 7
  /\ ~ (batch_size it7_padded | _size it7_padded).
Proof.
  split; [reflexivity |]. split; [reflexivity |]. split; [reflexivity |].
  split; [reflexivity |]. change (~ (2 | 7)). intros [k E]. lia.
Qed.

(** * Further properties of the class *)

(** ** No method changes the configuration *)

Lemma same_layout_refl (r : ReaderAttrs) : same_layout r r.
Proof. repeat split. Qed.

Lemma same_config_refl (s : Iter) : same_config s s.
Proof.
  unfold same_config. repeat split.
  destruct (_reader s); [apply same_layout_refl | exact I].
Qed.

Lemma same_config_trans (s1 s2 s3 : Iter) :
  same_config s1 s2 -> same_config s2 s3 -> same_config s1 s3.
Proof.
  unfold same_config, same_layout.
  intros (A1 & A2 & A3 & A4 & A5 & A6 & A7 & A8)
         (B1 & B2 & B3 & B4 & B5 & B6 & B7 & B8).
  repeat split; try congruence.
  destruct (_reader s1), (_reader s2), (_reader s3); try contradiction;
    try exact I.
  destruct A8 as (C1 & C2 & C3 & C4), B8 as (D1 & D2 & D3 & D4).
  repeat split; congruence.
Qed.

Lemma keeps_ret {A} (a : A) : keeps (ret a).
Proof. intros s. apply same_config_refl. Qed.

Lemma keeps_raise {A} (e : exn) : keeps (@raise A e).
Proof. intros s. apply same_config_refl. Qed.

Lemma keeps_lift {A} (r : res A) : keeps (lift r).
Proof. intros s. apply same_config_refl. Qed.

Lemma keeps_getf {A} (f : Iter -> A) : keeps (getf f).
Proof. intros s. apply same_config_refl. Qed.

Lemma keeps_rd {A} (f : ReaderAttrs -> A) : keeps (rd f).
Proof.
  intros s. unfold rd. destruct (_reader s); apply same_config_refl.
Qed.

Lemma keeps_bind {A B} (m : M A) (k : A -> M B) :
  keeps m -> (forall a, keeps (k a)) -> keeps (bind m k).
Proof.
  intros Hm Hk s. unfold bind. specialize (Hm s).
  destruct (m s) as [[a | e] s1]; simpl in *; [| exact Hm].
  eapply same_config_trans; [exact Hm | apply Hk].
Qed.

Lemma keeps_when (c : bool) (m : M unit) : keeps m -> keeps (when c m).
Proof. intros H. unfold when. destruct c; [exact H | apply keeps_ret]. Qed.

Lemma keeps_modify (f : Iter -> Iter) :
  (forall s, same_config s (f s)) -> keeps (modify f).
Proof. intros H s. apply H. Qed.

Lemma keeps_wr (f : ReaderAttrs -> ReaderAttrs) :
  (forall r, same_layout r (f r)) -> keeps (wr f).
Proof.
  intros H s. unfold wr. destruct (_reader s) as [r |] eqn:R; simpl.
  - unfold same_config. simpl. rewrite R. repeat split; apply H.
  - apply same_config_refl.
Qed.

Lemma keeps_emit (e : event) : keeps (emit e).
Proof.
  apply keeps_modify. intros s. unfold same_config. simpl. repeat split.
  destruct (_reader s); [apply same_layout_refl | exact I].
Qed.

Lemma same_config_with_counter (c : Z) (s : Iter) :
  same_config s (with_counter c s).
Proof.
  unfold same_config. simpl. repeat split.
  destruct (_reader s); [apply same_layout_refl | exact I].
Qed.

Lemma same_config_with_size (c : Z) (s : Iter) :
  same_config s (with_size c s).
Proof.
  unfold same_config. simpl. repeat split.
  destruct (_reader s); [apply same_layout_refl | exact I].
Qed.

Ltac keeps_step :=
  match goal with
  | |- keeps (bind _ _) => apply keeps_bind; [| intros ?]
  | |- keeps (when _ _) => apply keeps_when
  | |- keeps (if ?c then _ else _) => destruct c
  | |- keeps (getf _) => apply keeps_getf
  | |- keeps (rd _) => apply keeps_rd
  | |- keeps (lift _) => apply keeps_lift
  | |- keeps (ret _) => apply keeps_ret
  | |- keeps (raise _) => apply keeps_raise
  | |- keeps (emit _) => apply keeps_emit
  | |- keeps (wr _) => apply keeps_wr; intros ?; repeat split
  | |- keeps (modify (with_counter _)) =>
      apply keeps_modify; intros ?; apply same_config_with_counter
  | |- keeps (modify (with_size _)) =>
      apply keeps_modify; intros ?; apply same_config_with_size
  | |- keeps (modify (fun s => with_counter _ s)) =>
      apply keeps_modify; intros ?; apply same_config_with_counter
  end.

Lemma keeps_reset_pipes (pipes : list Pipeline) (i : nat) :
  keeps (reset_pipes i pipes).
Proof.
  revert i. induction pipes as [| p rest IH]; intros i; simpl.
  - apply keeps_ret.
  - repeat keeps_step. apply IH.
Qed.

Lemma keeps_reset_counter : keeps reset_counter.
Proof. unfold reset_counter. repeat keeps_step. Qed.

Lemma keeps_reset_shards : keeps reset_shards.
Proof. unfold reset_shards. repeat keeps_step. Qed.

Lemma keeps_reset : keeps reset.
Proof.
  unfold reset. repeat keeps_step.
  - apply keeps_reset_counter.
  - apply keeps_reset_shards.
  - apply keeps_reset_pipes.
Qed.

Lemma keeps_check_stop : keeps _check_stop.
Proof. unfold _check_stop. repeat keeps_step. apply keeps_reset. Qed.

Lemma remove_padded_pure (s : Iter) : snd (_remove_padded s) = s.
Proof.
  unfold _remove_padded. run_method.
  destruct (_fill_last_batch s); simpl; [reflexivity |].
  destruct (_reader s) as [r |] eqn:R; simpl; [| reflexivity].
  rewrite ?R; simpl.
  match goal with
  | |- context [Np.take ?a ?b] => destruct (Np.take a b)
  end; reflexivity.
Qed.

Lemma same_config_evolves (s0 s : Iter) : evolves s0 s -> same_config s0 s.
Proof.
  induction 1 as [| s c _ IH | s r s' _ IH E | s r s' _ IH E | s r s' _ IH E].
  - apply same_config_refl.
  - eapply same_config_trans; [exact IH | apply same_config_with_counter].
  - eapply same_config_trans; [exact IH |].
    pose proof (keeps_reset s) as K. now rewrite E in K.
  - eapply same_config_trans; [exact IH |].
    pose proof (keeps_check_stop s) as K. now rewrite E in K.
  - pose proof (remove_padded_pure s) as K. rewrite E in K. simpl in K.
    now subst s'.
Qed.

(** X7. No method changes the configuration of the object, whatever the
    counter is and also when the method raises: however the object is
    used, the number of pipelines, the batch size, the three policy
    flags, the pipelines, the reader name and, of the reader set-up, the
    data set size, the number of shards, the stick-to-shard flag and the
    initial shard sizes are those of the start. *)
Theorem configuration_is_constant (s0 s : Iter) :
  evolves s0 s ->
  same_config s0 s
  /\ same_config s (snd (reset s))
  /\ same_config s (snd (_check_stop s))
  /\ snd (_remove_padded s) = s.
Proof.
  intros Ev. split; [now apply same_config_evolves |].
  split; [apply keeps_reset |]. split; [apply keeps_check_stop |].
  apply remove_padded_pure.
Qed.

Lemma configuration_is_constant_witness :
  same_config it3 (snd (reset (with_counter 4 it3))).
Proof.
  refine (proj1 (configuration_is_constant it3
                   (snd (reset (with_counter 4 it3))) _)).
  apply (ev_reset it3 (with_counter 4 it3) (fst (reset (with_counter 4 it3)))).
  - apply ev_counter, ev_start.
  - vm_compute. reflexivity.
Defined.

(** ** What a reset does to the shards *)

(** On a well-formed reader-driven object [reset] returns normally; the
    current shard sizes are permuted, and the workers stay on their
    shards or all move to the next one. *)
Lemma reset_effect_reader (s : Iter) (r : ReaderAttrs) :
  well_formed s = true -> truthy (_reader_name s) = true ->
  _reader s = Some r ->
  exists s' r',
    reset s = (Ok tt, s')
    /\ well_formed s' = true
    /\ _reader s' = Some r'
    /\ Permutation (_shard_sizes_per_gpu r') (_shard_sizes_per_gpu r)
    /\ (_shards_id r' = _shards_id r
        \/ (_is_stick_to_shard r = false
            /\ _shards_id r'
               = map (next_shard (_shards_num r)) (_shards_id r))).
Proof.
  intros W T R.
  destruct (Z_le_gt_dec (_size s) (_counter s)) as [B | B];
    [| destruct (Z_lt_le_dec (_size s) 0) as [U | U]].
  3: { exists (with_trace (trace s ++ [EvLoggingWarning]) s), r.
       split; [apply reset_premature; lia |]. split; [exact W |].
       split; [exact R |]. split; [apply Permutation_refl | now left]. }
  all: exists (primed (after_reset s));
    pose proof (well_formed_after_reset _ W) as W';
    assert (E : reset s = (Ok tt, primed (after_reset s)))
      by (apply reset_at_boundary; [exact W | lia]);
    revert W' E; generalize (reset s); intros out W' E;
    unfold after_reset, rebased, rotated, resized in *;
    destruct s, r; simpl in *; subst _reader0; rewrite T in *;
    destruct (_fill_last_batch0 && negb _last_batch_padded0);
    destruct _is_stick_to_shard0; simpl in *;
    try match goal with
        | |- context [if ?e =? 0 then _ else _] => destruct (e =? 0)
        end; simpl in *;
    eexists; (split; [exact E |]); (split; [exact W' |]);
    (split; [reflexivity |]); simpl;
    (split;
     [first [apply Permutation_refl | apply roll_perm
            | etransitivity; apply roll_perm]
     | first [now left | right; split; reflexivity]]).
Qed.

(** On a well-formed object that is not reader-driven [reset] returns
    normally. *)
Lemma reset_effect_manual (s : Iter) :
  well_formed s = true -> truthy (_reader_name s) = false ->
  exists s',
    reset s = (Ok tt, s') /\ well_formed s' = true
    /\ _reader s' = _reader s /\ _size s' = _size s.
Proof.
  intros W T.
  destruct (Z_le_gt_dec (_size s) (_counter s)) as [B | B];
    [| destruct (Z_lt_le_dec (_size s) 0) as [U | U]].
  3: { exists (with_trace (trace s ++ [EvLoggingWarning]) s).
       split; [apply reset_premature; lia |]. split; [exact W |].
       split; reflexivity. }
  all: exists (primed (after_reset s));
    (split; [apply reset_at_boundary; [exact W | lia] |]);
    (split; [now apply well_formed_after_reset |]);
    unfold after_reset; rewrite T;
    destruct (_fill_last_batch s && negb (_last_batch_padded s));
    split; reflexivity.
Qed.

Lemma well_formed_evolves (s0 s : Iter) :
  well_formed s0 = true -> evolves s0 s -> well_formed s = true.
Proof.
  intros W0. induction 1 as [| s c _ IH | s r s' _ IH E
                            | s r s' _ IH E | s r s' _ IH E].
  - exact W0.
  - exact IH.
  - destruct (reset_total s IH) as (s1 & E1 & W1).
    rewrite E in E1. now injection E1 as _ <-.
  - destruct (check_stop_state s) as [H | H]; rewrite E in H; simpl in H;
      subst s'; [exact IH |].
    destruct (reset_total s IH) as (s1 & E1 & W1). now rewrite E1.
  - pose proof (remove_padded_pure s) as K. rewrite E in K. simpl in K.
    now subst s'.
Qed.

(** X8. After a successful construction, however the object is used
    (any counter, any order of calls), [reset] returns normally, and
    [_check_stop] either returns normally or raises [StopIteration]:
    neither fails with a division by zero, an empty [min] or [max], a
    shape mismatch or a missing attribute. *)
Theorem methods_never_fail (pipelines : list Pipeline) (size : Z)
    (name : option string) (auto fill lbp : bool) (s0 s : Iter) :
  __init__ pipelines size name auto fill lbp = Ok s0 ->
  evolves s0 s ->
  fst (reset s) = Ok tt
  /\ (fst (_check_stop s) = Ok tt \/ fst (_check_stop s) = Raise StopIteration).
Proof.
  intros H Ev.
  pose proof (well_formed_evolves _ _ (init_well_formed _ _ _ _ _ _ _ H) Ev)
    as W.
  destruct (reset_total s W) as (s1 & E1 & _).
  split; [now rewrite E1 |].
  unfold _check_stop. run_method.
  destruct ((_size s <=? _counter s) && (0 <? _size s)); [| now left].
  simpl. destruct (_auto_reset s); simpl; [| now right].
  rewrite E1. now right.
Qed.

Lemma methods_never_fail_witness :
  fst (reset (with_counter 100 it_skip)) = Ok tt
  /\ (fst (_check_stop (with_counter 100 it_skip)) = Ok tt
      \/ fst (_check_stop (with_counter 100 it_skip)) = Raise StopIteration).
Proof.
  apply (methods_never_fail
           [mk_pipe 4 (mk_meta 2 1 2 0 false false);
            mk_pipe 4 (mk_meta 2 1 2 1 false false)] (-1)
           (Some "Reader"%string) false true false it_skip).
  - reflexivity.
  - apply ev_counter, ev_start.
Defined.

Lemma next_shard_in_range (n i : Z) : 1 <= n -> 0 <= next_shard n i < n.
Proof. intros N. unfold next_shard. apply Z.mod_pos_bound. lia. Qed.

Lemma reader_of_same_config (s s' : Iter) (r : ReaderAttrs) :
  same_config s s' -> _reader s = Some r ->
  exists r', _reader s' = Some r' /\ same_layout r r'.
Proof.
  intros (_ & _ & _ & _ & _ & _ & _ & L) R. rewrite R in L.
  destruct (_reader s') as [r' |]; [eauto | contradiction].
Qed.

(** The shards of a reader-driven object, however it is used: the
    current sizes are a permutation of those of the start, the workers
    are as many, they stay on valid shards, and they do not move when
    they stick to their shard. *)
Lemma shards_evolve (s0 s : Iter) (r0 : ReaderAttrs) :
  well_formed s0 = true -> truthy (_reader_name s0) = true ->
  _reader s0 = Some r0 -> evolves s0 s ->
  well_formed s = true
  /\ truthy (_reader_name s) = true
  /\ exists r,
       _reader s = Some r
       /\ same_layout r0 r
       /\ Permutation (_shard_sizes_per_gpu r) (_shard_sizes_per_gpu r0)
       /\ length (_shards_id r) = length (_shards_id r0)
       /\ (Forall (fun i => 0 <= i < _shards_num r0) (_shards_id r0) ->
           Forall (fun i => 0 <= i < _shards_num r0) (_shards_id r))
       /\ (_is_stick_to_shard r0 = true -> _shards_id r = _shards_id r0).
Proof.
  intros W0 T0 R0 Ev.
  assert (Step : forall s, well_formed s = true ->
            truthy (_reader_name s) = true ->
            (exists r,
               _reader s = Some r /\ same_layout r0 r
               /\ Permutation (_shard_sizes_per_gpu r) (_shard_sizes_per_gpu r0)
               /\ length (_shards_id r) = length (_shards_id r0)
               /\ (Forall (fun i => 0 <= i < _shards_num r0) (_shards_id r0) ->
                   Forall (fun i => 0 <= i < _shards_num r0) (_shards_id r))
               /\ (_is_stick_to_shard r0 = true ->
                   _shards_id r = _shards_id r0)) ->
            well_formed (snd (reset s)) = true
            /\ truthy (_reader_name (snd (reset s))) = true
            /\ exists r,
                 _reader (snd (reset s)) = Some r /\ same_layout r0 r
                 /\ Permutation (_shard_sizes_per_gpu r)
                      (_shard_sizes_per_gpu r0)
                 /\ length (_shards_id r) = length (_shards_id r0)
                 /\ (Forall (fun i => 0 <= i < _shards_num r0) (_shards_id r0) ->
                     Forall (fun i => 0 <= i < _shards_num r0) (_shards_id r))
                 /\ (_is_stick_to_shard r0 = true ->
                     _shards_id r = _shards_id r0)).
  { intros x W T (r & R & L & P & Len & Rg & St).
    destruct (well_formed_reader x W T) as (rx & Rx & N & _).
    rewrite R in Rx. injection Rx as <-.
    destruct (reset_effect_reader x r W T R)
      as (x' & r' & E & W' & R' & P' & Ids).
    pose proof (keeps_reset x) as K. rewrite E in *. simpl in *.
    destruct K as (_ & _ & _ & _ & _ & _ & Kn & Kl).
    rewrite R, R' in Kl.
    assert (L' : same_layout r0 r').
    { destruct L as (L1 & L2 & L3 & L4), Kl as (K1 & K2 & K3 & K4).
      repeat split; congruence. }
    destruct L as (_ & Ln & Ls & _).
    split; [exact W' |]. split; [now rewrite Kn |].
    exists r'. split; [exact R' |]. split; [exact L' |].
    split; [now rewrite P' |].
    destruct Ids as [-> | [Sf ->]].
    - repeat split; assumption.
    - rewrite length_map. split; [exact Len |]. split.
      + intros _. apply Forall_forall. intros i Hi.
        apply in_map_iff in Hi. destruct Hi as (j & <- & _).
        rewrite Ln. apply next_shard_in_range. lia.
      + intros St0. congruence. }
  induction Ev as [| s c _ IH | s r s' _ IH E | s r s' _ IH E
                   | s r s' _ IH E].
  - split; [exact W0 |]. split; [exact T0 |].
    exists r0. split; [exact R0 |]. split; [apply same_layout_refl |].
    split; [apply Permutation_refl |]. repeat split; auto.
  - exact IH.
  - destruct IH as (W & T & I). specialize (Step s W T I).
    now rewrite E in Step.
  - destruct IH as (W & T & I).
    destruct (check_stop_state s) as [H | H]; rewrite E in H; simpl in H;
      subst s'; [now repeat split | now apply Step].
  - pose proof (remove_padded_pure s) as K. rewrite E in K. simpl in K.
    now subst s'.
Qed.



(** What a successful reader-driven construction leaves in the reader
    attributes. *)
Lemma init_reader_attrs (pipelines : list Pipeline) (size : Z)
    (n : string) (auto fill lbp : bool) (s0 : Iter) :
  truthy (Some n) = true ->
  __init__ pipelines size (Some n) auto fill lbp = Ok s0 ->
  exists r0,
    _reader s0 = Some r0
    /\ 1 <= _shards_num r0
    /\ _shards_id r0 = map (fun p => shard_id (reader_meta p n)) pipelines
    /\ _counter_per_gpu r0 = repeat 0 (Z.to_nat (_shards_num r0))
    /\ _shard_sizes_per_gpu r0
       = _calculate_shard_sizes (_size_no_pad r0) (_shards_num r0)
           (Np.arange (_shards_num r0))
    /\ _shard_sizes_per_gpu_initial r0 = _shard_sizes_per_gpu r0
    /\ _counter s0 = 0
    /\ _reader_name s0 = Some n
    /\ _pipes s0 = pipelines
    /\ _fill_last_batch s0 = fill
    /\ _auto_reset s0 = auto
    /\ (forall p, In p pipelines ->
          number_of_shards (reader_meta p n) = _shards_num r0
          /\ epoch_size (reader_meta p n) = _size_no_pad r0
          /\ pad_last_batch (reader_meta p n) = _last_batch_padded s0
          /\ stick_to_shard (reader_meta p n) = _is_stick_to_shard r0
          /\ p_batch_size p = batch_size s0).
Proof.
  intros T H.
  pose proof (init_ok _ _ _ _ _ _ _ H)
    as (p0 & rest & -> & Hb & _ & Hr & _ & E).
  destruct (Hr T) as [Hs _].
  simpl in E. rewrite T in E.
  destruct (Z.ltb_spec size 0); [| lia]. simpl in E.
  apply extract_reader_ok with (name := n) in E; [| reflexivity | exact T].
  destruct E as (m0 & metas & M & N & U & _ & ->). cbn [_pipes] in M.
  assert (Hids : map shard_id (m0 :: metas)
                 = map (fun p => shard_id (reader_meta p n)) (p0 :: rest))
    by (rewrite <- M, map_map; reflexivity).
  eexists. split; [reflexivity |]. cbn.
  split; [exact N |]. split; [exact Hids |].
  split; [reflexivity |]. split; [reflexivity |]. split; [reflexivity |].
  split; [reflexivity |]. split; [reflexivity |]. split; [reflexivity |].
  split; [reflexivity |]. split; [reflexivity |].
  intros p Hp.
  assert (Hm : In (reader_meta p n) (m0 :: metas)).
  { rewrite <- M. exact (in_map (fun q => reader_meta q n) (p0 :: rest) p Hp). }
  destruct (U _ Hm) as (U1 & U2 & U3 & U4).
  repeat split; try assumption. now apply Hb.
Qed.



Lemma padded_flag (bs c x : Z) : (bs - (c - x) <? bs) = (x <? c).
Proof.
  destruct (Z.ltb_spec (bs - (c - x)) bs), (Z.ltb_spec x c); lia || reflexivity.
Qed.

(** X10. On a reader-driven iterator whose pipelines all report a shard
    id within 0 .. number_of_shards - 1, however the iterator is used,
    the shard ids stay within that range, one per pipeline, and
    [_remove_padded] never raises and does not change the object: with
    [_fill_last_batch] it returns [(False, -1)]; without it, it returns
    for every worker [batch_size - (counter - size of its shard)], and
    flags the worker exactly when the counter has passed the size of its
    shard. *)
Theorem remove_padded_never_raises (pipelines : list Pipeline) (size : Z)
    (n : string) (auto fill lbp : bool) (s0 s : Iter) :
  truthy (Some n) = true ->
  __init__ pipelines size (Some n) auto fill lbp = Ok s0 ->
  (forall p, In p pipelines ->
     0 <= shard_id (reader_meta p n) < number_of_shards (reader_meta p n)) ->
  evolves s0 s ->
  exists r,
    _reader s = Some r
    /\ length (_shards_id r) = length pipelines
    /\ Forall (fun i => 0 <= i < _shards_num r) (_shards_id r)
    /\ _remove_padded s
       = (Ok (if _fill_last_batch s then (PyBool false, PyInt (-1))
              else (NdBool (map (fun i =>
                                   nth (Z.to_nat i)
                                     (_shard_sizes_per_gpu_initial r) 0
                                   <? _counter s) (_shards_id r)),
                    NdInt (map (fun i =>
                                  batch_size s
                                  - (_counter s
                                     - nth (Z.to_nat i)
                                         (_shard_sizes_per_gpu_initial r) 0))
                             (_shards_id r)))), s).
Proof.
  intros T H Valid Ev.
  destruct (init_reader_attrs _ _ _ _ _ _ _ T H)
    as (r0 & R0 & N & Ids0 & _ & Sz & In0 & _ & Nm & _ & _ & _ & U).
  assert (T0 : truthy (_reader_name s0) = true) by now rewrite Nm.
  destruct (shards_evolve s0 s r0 (init_well_formed _ _ _ _ _ _ _ H) T0 R0 Ev)
    as (_ & _ & r & R & (L1 & L2 & _ & L4) & _ & Len & Rg & _).
  assert (Rg0 : Forall (fun i => 0 <= i < _shards_num r0) (_shards_id r0)).
  { rewrite Ids0. apply Forall_forall. intros i Hi.
    apply in_map_iff in Hi. destruct Hi as (p & <- & Hp).
    destruct (U p Hp) as (Un & _). rewrite <- Un. now apply Valid. }
  specialize (Rg Rg0). rewrite <- L2 in Rg.
  assert (LenI : length (_shard_sizes_per_gpu_initial r)
                 = Z.to_nat (_shards_num r)).
  { rewrite L4, In0, Sz, calculate_shard_sizes_length, arange_length.
    now rewrite L2. }
  exists r. split; [exact R |].
  split; [now rewrite Len, Ids0, length_map |]. split; [exact Rg |].
  unfold _remove_padded. run_method.
  destruct (_fill_last_batch s); simpl; [reflexivity |].
  rewrite R. simpl. rewrite R. simpl.
  rewrite take_in_range.
  - simpl. rewrite !map_map.
    rewrite (map_ext _ _ (fun i => padded_flag (batch_size s) (_counter s)
                            (nth (Z.to_nat i)
                               (_shard_sizes_per_gpu_initial r) 0))).
    reflexivity.
  - eapply Forall_impl; [| exact Rg]. cbv beta. intros i Hi. lia.
Qed.

Lemma remove_padded_never_raises_witness :
  exists r,
    _reader (with_counter 4 it3) = Some r
    /\ length (_shards_id r) = 3%nat
    /\ Forall (fun i => 0 <= i < _shards_num r) (_shards_id r)
    /\ _remove_padded (with_counter 4 it3)
       = (Ok (if _fill_last_batch (with_counter 4 it3)
              then (PyBool false, PyInt (-1))
              else (NdBool (map (fun i =>
                                   nth (Z.to_nat i)
                                     (_shard_sizes_per_gpu_initial r) 0
                                   <? _counter (with_counter 4 it3))
                              (_shards_id r)),
                    NdInt (map (fun i =>
                                  batch_size (with_counter 4 it3)
                                  - (_counter (with_counter 4 it3)
                                     - nth (Z.to_nat i)
                                         (_shard_sizes_per_gpu_initial r) 0))
                             (_shards_id r)))), with_counter 4 it3).
Proof.
  apply (remove_padded_never_raises
           [mk_pipe 4 (mk_meta 3 10 12 0 false false);
            mk_pipe 4 (mk_meta 3 10 12 1 false false);
            mk_pipe 4 (mk_meta 3 10 12 2 false false)] (-1)
           "Reader"%string false true false it3).
  - reflexivity.
  - reflexivity.
  - intros p [<- | [<- | [<- | []]]]; simpl; lia.
  - apply ev_counter, ev_start.
Defined.

(** X11. On a reader-driven iterator whose reader sticks to its shard,
    however the iterator is used, every worker stays on the shard that
    its pipeline reported at construction. *)
Theorem stick_to_shard_keeps_ids (pipelines : list Pipeline) (size : Z)
    (n : string) (auto fill lbp : bool) (s0 s : Iter) :
  truthy (Some n) = true ->
  __init__ pipelines size (Some n) auto fill lbp = Ok s0 ->
  (exists p, In p pipelines /\ stick_to_shard (reader_meta p n) = true) ->
  evolves s0 s ->
  reader_ids s = map (fun p => shard_id (reader_meta p n)) pipelines.
Proof.
  intros T H (p & Hp & St) Ev.
  destruct (init_reader_attrs _ _ _ _ _ _ _ T H)
    as (r0 & R0 & N & Ids0 & _ & _ & _ & _ & Nm & _ & _ & _ & U).
  assert (T0 : truthy (_reader_name s0) = true) by now rewrite Nm.
  destruct (shards_evolve s0 s r0 (init_well_formed _ _ _ _ _ _ _ H) T0 R0 Ev)
    as (_ & _ & r & R & _ & _ & _ & _ & Fix).
  destruct (U p Hp) as (_ & _ & _ & Us & _).
  unfold reader_ids. rewrite R, Fix by congruence. exact Ids0.
Qed.

Lemma stick_to_shard_keeps_ids_witness :
  let pipes := [mk_pipe 2 (mk_meta 2 7 8 1 false true)] in
  let s0 := built (__init__ pipes (-1) (Some "Reader"%string)
                     false true false) blank in
  reader_ids (snd (reset (with_counter 4 s0))) = [1].
Proof.
  cbv zeta.
  apply (stick_to_shard_keeps_ids
           [mk_pipe 2 (mk_meta 2 7 8 1 false true)] (-1)
           "Reader"%string false true false
           (built (__init__ [mk_pipe 2 (mk_meta 2 7 8 1 false true)] (-1)
                     (Some "Reader"%string) false true false) blank)).
  - reflexivity.
  - reflexivity.
  - eexists. split; [now left | reflexivity].
  - apply (ev_reset _
             (with_counter 4
                (built (__init__ [mk_pipe 2 (mk_meta 2 7 8 1 false true)] (-1)
                          (Some "Reader"%string) false true false) blank))
             (Ok tt)).
    + apply ev_counter, ev_start.
    + vm_compute. reflexivity.
Defined.

(** ** When construction succeeds *)

Lemma uniform_forallb {A} (f : A -> Z) (x0 : A) (l : list A) :
  (forall x, In x l -> f x = f x0) ->
  forallb (fun x => f x =? f x0) l = true.
Proof.
  intros U. apply forallb_forall. intros x Hx. apply Z.eqb_eq. now apply U.
Qed.

Lemma uniform_all_or_none {A} (f : A -> bool) (x0 : A) (l : list A) :
  (forall x, In x l -> f x = f x0) ->
  forallb f l || negb (existsb f l) = true.
Proof.
  intros U. destruct (f x0) eqn:E.
  - replace (forallb f l) with true; [reflexivity |].
    symmetry. apply forallb_forall. intros x Hx. now rewrite U.
  - replace (existsb f l) with false; [apply orb_true_r |].
    symmetry. destruct (existsb f l) eqn:X; [| reflexivity].
    apply existsb_exists in X. destruct X as (x & Hx & Fx).
    rewrite U in Fx by exact Hx. congruence.
Qed.

(** X1. Without a reader name, construction succeeds exactly when there
    is at least one pipeline, all pipelines have the batch size of the
    first, the size is not 0 and a negative size comes with a single
    pipeline.  The object then has the given size, a zero counter, no
    reader attributes, and the three options as given, except that a
    negative size turns [auto_reset], [fill_last_batch] and
    [last_batch_padded] off; every pipeline has been built once, in
    order, after the deprecation warning that a positive size gets. *)
Theorem manual_construction (pipelines : list Pipeline) (size : Z)
    (name : option string) (auto fill lbp : bool) :
  truthy name = false ->
  ((exists s0, __init__ pipelines size name auto fill lbp = Ok s0)
   <-> (exists p0 rest,
          pipelines = p0 :: rest
          /\ (forall p, In p pipelines -> p_batch_size p = p_batch_size p0)
          /\ size <> 0
          /\ (size < 0 -> rest = [])))
  /\ (forall s0,
        __init__ pipelines size name auto fill lbp = Ok s0 ->
        _size s0 = size /\ _counter s0 = 0 /\ _reader s0 = None
        /\ _pipes s0 = pipelines /\ _num_gpus s0 = length pipelines
        /\ _reader_name s0 = name
        /\ (forall p, In p pipelines -> p_batch_size p = batch_size s0)
        /\ (size < 0 ->
            _auto_reset s0 = false /\ _fill_last_batch s0 = false
            /\ _last_batch_padded s0 = false
            /\ trace s0 = map EvBuild (seq 0 (length pipelines)))
        /\ (0 < size ->
            _auto_reset s0 = auto /\ _fill_last_batch s0 = fill
            /\ _last_batch_padded s0 = lbp
            /\ trace s0 = EvDeprecationWarning
                          :: map EvBuild (seq 0 (length pipelines)))).
Proof.
  intros T.
  assert (Inv : forall s0,
            __init__ pipelines size name auto fill lbp = Ok s0 ->
            exists p0 rest,
              pipelines = p0 :: rest
              /\ (forall p, In p pipelines -> p_batch_size p = p_batch_size p0)
              /\ size <> 0 /\ (size < 0 -> rest = [])
              /\ s0 = {| _num_gpus := length pipelines;
                         batch_size := p_batch_size p0;
                         _size := size;
                         _auto_reset := if size <? 0 then false else auto;
                         _fill_last_batch := if size <? 0 then false else fill;
                         _last_batch_padded := if size <? 0 then false else lbp;
                         _pipes := pipelines;
                         _counter := 0;
                         _reader_name := name;
                         _reader := None;
                         trace := (if 0 <? size then [EvDeprecationWarning]
                                   else [])
                                  ++ map EvBuild (seq 0 (length pipelines)) |}).
  { intros s0 H. apply init_ok in H.
    destruct H as (p0 & rest & -> & Hb & Hs & _ & Hm & E).
    cbv zeta in E. rewrite T in E. rewrite !andb_true_r in E.
    rewrite extract_manual in E by exact T. injection E as <-.
    exists p0, rest. split; [reflexivity |]. split; [exact Hb |].
    split; [exact Hs |]. split; [| reflexivity].
    intros Neg. specialize (Hm T Neg). destruct rest; [reflexivity |].
    discriminate. }
  split; [split |].
  - intros [s0 H]. destruct (Inv s0 H) as (p0 & rest & P & Hb & Hs & Hn & _).
    exists p0, rest. repeat split; assumption.
  - intros (p0 & rest & -> & Hb & Hs & Hn). unfold __init__.
    cbv beta iota delta [rbind].
    rewrite (uniform_forallb p_batch_size p0) by exact Hb.
    rewrite T. destruct (Z.eqb_spec size 0); [contradiction |].
    cbn [negb assert andb orb].
    destruct (Z.ltb_spec 0 size) as [Pos | Neg].
    + cbn [orb assert]. rewrite extract_manual by exact T. eauto.
    + destruct (Z.ltb_spec size 0); [| lia]. rewrite (Hn ltac:(lia)).
      cbn. rewrite extract_manual by exact T. eauto.
  - intros s0 H. destruct (Inv s0 H) as (p0 & rest & P & Hb & Hs & Hn & ->).
    cbn. repeat split; try reflexivity.
    + intros p Hp. now apply Hb.
    + destruct (Z.ltb_spec size 0); [reflexivity | lia].
    + destruct (Z.ltb_spec size 0); [reflexivity | lia].
    + destruct (Z.ltb_spec size 0); [reflexivity | lia].
    + destruct (Z.ltb_spec 0 size); [lia | reflexivity].
    + destruct (Z.ltb_spec size 0); [lia | reflexivity].
    + destruct (Z.ltb_spec size 0); [lia | reflexivity].
    + destruct (Z.ltb_spec size 0); [lia | reflexivity].
    + destruct (Z.ltb_spec 0 size); [reflexivity | lia].
Qed.

Lemma manual_construction_witness :
  (exists s0,
     __init__ [mk_pipe 2 (mk_meta 1 7 7 0 false false)] (-1) None
       true true true = Ok s0)
  /\ _fill_last_batch
       (built (__init__ [mk_pipe 2 (mk_meta 1 7 7 0 false false)] (-1) None
                 true true true) blank) = false.
Proof.
  split.
  - apply (proj1 (manual_construction
                    [mk_pipe 2 (mk_meta 1 7 7 0 false false)] (-1) None
                    true true true eq_refl)).
    exists (mk_pipe 2 (mk_meta 1 7 7 0 false false)), [].
    split; [reflexivity |]. split; [| split; [lia | reflexivity]].
    intros p [<- | []]. reflexivity.
  - apply (proj2 (manual_construction
                    [mk_pipe 2 (mk_meta 1 7 7 0 false false)] (-1) None
                    true true true eq_refl)
             _ eq_refl).
    lia.
Defined.

Lemma check_equality_uniform (metas : list ReaderMeta) (m0 : ReaderMeta)
    (rest : list ReaderMeta) (name : ReaderMeta -> Z) (msg : string) :
  metas = m0 :: rest -> (forall m, In m metas -> name m = name m0) ->
  check_equality_and_get metas name msg = Ok (name m0).
Proof.
  intros -> U. unfold check_equality_and_get. simpl first_meta.
  cbv beta iota delta [rbind].
  now rewrite (uniform_forallb name m0) by exact U.
Qed.

Lemma check_all_or_none_uniform (metas : list ReaderMeta) (m0 : ReaderMeta)
    (rest : list ReaderMeta) (name : ReaderMeta -> bool) (msg : string) :
  metas = m0 :: rest -> (forall m, In m metas -> name m = name m0) ->
  check_all_or_none_and_get metas metas name msg = Ok (name m0).
Proof.
  intros -> U. unfold check_all_or_none_and_get.
  now rewrite (uniform_all_or_none name m0) by exact U.
Qed.

(** X2. With a reader name, construction succeeds exactly when there is
    at least one pipeline, all pipelines have the batch size of the
    first, the size is negative, [last_batch_padded] is not set, the
    readers of all pipelines report the epoch size, the number of shards,
    the [pad_last_batch] flag and the [stick_to_shard] flag of the first,
    the number of shards is at least 1, and the batch size is not 0
    unless the reader pads. *)
Theorem reader_construction (pipelines : list Pipeline) (size : Z)
    (n : string) (auto fill lbp : bool) :
  truthy (Some n) = true ->
  (exists s0, __init__ pipelines size (Some n) auto fill lbp = Ok s0)
  <-> (exists p0 rest,
         pipelines = p0 :: rest
         /\ (forall p, In p pipelines ->
               p_batch_size p = p_batch_size p0
               /\ epoch_size (reader_meta p n) = epoch_size (reader_meta p0 n)
               /\ number_of_shards (reader_meta p n)
                  = number_of_shards (reader_meta p0 n)
               /\ pad_last_batch (reader_meta p n)
                  = pad_last_batch (reader_meta p0 n)
               /\ stick_to_shard (reader_meta p n)
                  = stick_to_shard (reader_meta p0 n))
         /\ size < 0 /\ lbp = false
         /\ 1 <= number_of_shards (reader_meta p0 n)
         /\ (pad_last_batch (reader_meta p0 n) = false ->
             p_batch_size p0 <> 0)).
Proof.
  intros T. split.
  - intros [s0 H].
    pose proof (init_ok _ _ _ _ _ _ _ H)
      as (p0 & rest & -> & Hb & _ & Hr & _ & E).
    destruct (Hr T) as [Hs Hl]. cbv zeta in E.
    apply extract_reader_ok with (name := n) in E; [| reflexivity | exact T].
    destruct E as (m0 & metas & M & N & U & B & _).
    cbn [_pipes batch_size map] in M, B. injection M as <- <-.
    exists p0, rest. split; [reflexivity |]. split.
    + intros p Hp.
      assert (Hm : In (reader_meta p n)
                     (reader_meta p0 n
                      :: map (fun q => reader_meta q n) rest))
        by exact (in_map (fun q => reader_meta q n) (p0 :: rest) p Hp).
      destruct (U _ Hm) as (U1 & U2 & U3 & U4).
      split; [now apply Hb |]. repeat split; assumption.
    + repeat split; assumption.
  - intros (p0 & rest & -> & U & Hs & -> & N & B).
    unfold __init__. cbv beta iota delta [rbind].
    rewrite (uniform_forallb p_batch_size p0) by (intros p Hp; now apply U).
    rewrite T. destruct (Z.eqb_spec size 0); [lia |].
    destruct (Z.ltb_spec size 0); [| lia].
    destruct (Z.ltb_spec 0 size); [lia |].
    cbn [negb assert andb orb]. rewrite orb_true_r. cbn [assert andb].
    unfold _extract_from_reader_and_validate. cbn [_reader_name _pipes].
    rewrite T.
    set (metas := map (fun p => reader_meta p n) (p0 :: rest)).
    assert (M : metas = reader_meta p0 n
                        :: map (fun p => reader_meta p n) rest)
      by reflexivity.
    assert (Um : forall m, In m metas ->
              epoch_size m = epoch_size (reader_meta p0 n)
              /\ number_of_shards m = number_of_shards (reader_meta p0 n)
              /\ pad_last_batch m = pad_last_batch (reader_meta p0 n)
              /\ stick_to_shard m = stick_to_shard (reader_meta p0 n)).
    { intros m Hm. apply in_map_iff in Hm. destruct Hm as (p & <- & Hp).
      destruct (U p Hp) as (_ & U1 & U2 & U3 & U4). repeat split; assumption. }
    rewrite (check_equality_uniform metas _ _ epoch_size _ M)
      by (intros m Hm; now apply Um).
    cbv beta iota delta [rbind].
    rewrite (check_equality_uniform metas _ _ number_of_shards _ M)
      by (intros m Hm; now apply Um).
    cbv beta iota delta [rbind].
    rewrite (check_all_or_none_uniform metas _ _ pad_last_batch _ M)
      by (intros m Hm; now apply Um).
    cbv beta iota delta [rbind].
    rewrite (check_all_or_none_uniform metas _ _ stick_to_shard _ M)
      by (intros m Hm; now apply Um).
    cbv beta iota delta [rbind].
    rewrite zeros_ok by lia.
    destruct (pad_last_batch (reader_meta p0 n)).
    + rewrite M. cbn [first_meta]. unfold py_floordiv.
      destruct (Z.eqb_spec (number_of_shards (reader_meta p0 n)) 0); [lia |].
      eauto.
    + unfold py_ceil_div. cbn [batch_size].
      destruct (Z.eqb_spec (number_of_shards (reader_meta p0 n)) 0); [lia |].
      destruct (Z.eqb_spec (p_batch_size p0) 0);
        [exfalso; now apply B | eauto].
Qed.

Lemma reader_construction_witness :
  exists s0,
    __init__ [mk_pipe 2 (mk_meta 1 7 7 0 false false)] (-1)
      (Some "Reader"%string) false true false = Ok s0.
Proof.
  apply (proj2 (reader_construction
                  [mk_pipe 2 (mk_meta 1 7 7 0 false false)] (-1)
                  "Reader"%string false true false eq_refl)).
  exists (mk_pipe 2 (mk_meta 1 7 7 0 false false)), [].
  split; [reflexivity |]. split.
  - intros p [<- | []]. repeat split.
  - split; [lia |]. split; [reflexivity |]. split; [simpl; lia |].
    intros _. simpl. lia.
Defined.

(** X3. When the pipelines agree on the batch size, the constructor
    rejects its arguments with these assertions, in this order: a size
    of 0; a negative size without a reader name and with more than one
    pipeline; a reader name with a positive size; a reader name with
    [last_batch_padded] set. *)
Theorem construction_rejects_arguments (p0 : Pipeline) (rest : list Pipeline)
    (size : Z) (name : option string) (auto fill lbp : bool) :
  (forall p, In p (p0 :: rest) -> p_batch_size p = p_batch_size p0) ->
  (size = 0 ->
   __init__ (p0 :: rest) size name auto fill lbp
   = Raise (AssertionError (Some "Size cannot be 0"%string)))
  /\ (size < 0 -> truthy name = false -> rest <> [] ->
      __init__ (p0 :: rest) size name auto fill lbp
      = Raise (AssertionError
                 (Some "Negative size is supported only for a single pipeline"%string)))
  /\ (0 < size -> truthy name = true ->
      __init__ (p0 :: rest) size name auto fill lbp
      = Raise (AssertionError
                 (Some "When reader_name is provided, size should not be set"%string)))
  /\ (size < 0 -> truthy name = true -> lbp = true ->
      __init__ (p0 :: rest) size name auto fill lbp
      = Raise (AssertionError
                 (Some "When reader_name is provided, last_batch_padded should not be set"%string))).
Proof.
  intros U.
  assert (A : forallb (fun p => p_batch_size p =? p_batch_size p0) (p0 :: rest)
              = true) by (apply uniform_forallb; exact U).
  split; [| split; [| split]].
  - intros ->. unfold __init__. cbv beta iota delta [rbind].
    rewrite A. reflexivity.
  - intros Neg T Hne. unfold __init__. cbv beta iota delta [rbind].
    rewrite A, T. destruct (Z.eqb_spec size 0); [lia |].
    destruct (Z.ltb_spec size 0); [| lia].
    destruct (Z.ltb_spec 0 size); [lia |].
    destruct rest; [congruence | reflexivity].
  - intros Pos T. unfold __init__. cbv beta iota delta [rbind].
    rewrite A, T. destruct (Z.eqb_spec size 0); [lia |].
    destruct (Z.ltb_spec size 0); [lia |].
    destruct (Z.ltb_spec 0 size); [| lia]. reflexivity.
  - intros Neg T ->. unfold __init__. cbv beta iota delta [rbind].
    rewrite A, T. destruct (Z.eqb_spec size 0); [lia |].
    destruct (Z.ltb_spec size 0); [| lia].
    destruct (Z.ltb_spec 0 size); [lia |].
    cbn [negb assert andb orb]. rewrite orb_true_r. reflexivity.
Qed.

Lemma construction_rejects_arguments_witness :
  __init__ [mk_pipe 2 (mk_meta 1 7 7 0 false false);
            mk_pipe 2 (mk_meta 1 7 7 0 false false)] (-1) None
    false true false
  = Raise (AssertionError
             (Some "Negative size is supported only for a single pipeline"%string)).
Proof.
  apply (construction_rejects_arguments
           (mk_pipe 2 (mk_meta 1 7 7 0 false false))
           [mk_pipe 2 (mk_meta 1 7 7 0 false false)] (-1) None
           false true false).
  - intros p [<- | [<- | []]]; reflexivity.
  - lia.
  - reflexivity.
  - discriminate.
Defined.

(** ** The unsized mode *)

Lemma manual_evolves (s0 s : Iter) :
  well_formed s0 = true -> truthy (_reader_name s0) = false ->
  evolves s0 s ->
  well_formed s = true /\ truthy (_reader_name s) = false
  /\ _size s = _size s0.
Proof.
  intros W0 T0 Ev.
  assert (Step : forall x, well_formed x = true ->
            truthy (_reader_name x) = false -> _size x = _size s0 ->
            well_formed (snd (reset x)) = true
            /\ truthy (_reader_name (snd (reset x))) = false
            /\ _size (snd (reset x)) = _size s0).
  { intros x W T S.
    destruct (reset_effect_manual x W T) as (x' & E & W' & _ & S').
    pose proof (keeps_reset x) as (_ & _ & _ & _ & _ & _ & Kn & _).
    rewrite E in *. simpl in *.
    split; [exact W' |]. split; [now rewrite Kn | congruence]. }
  induction Ev as [| s c _ IH | s r s' _ IH E | s r s' _ IH E
                   | s r s' _ IH E].
  - repeat split; assumption.
  - exact IH.
  - destruct IH as (W & T & S). pose proof (Step s W T S) as K.
    now rewrite E in K.
  - destruct IH as (W & T & S).
    destruct (check_stop_state s) as [H | H]; rewrite E in H; simpl in H;
      subst s'; [now repeat split | now apply Step].
  - pose proof (remove_padded_pure s) as K. rewrite E in K. simpl in K.
    now subst s'.
Qed.

(** X4. An iterator constructed with a negative size and no reader name
    never signals the end of an epoch, however it is used and wherever
    the counter is: [_size] stays the negative size, [_check_stop]
    returns normally and leaves the object alone, and [reset] is never
    refused: it sets the counter to 0, resets the pipelines and adds no
    warning. *)
Theorem unsized_never_stops (pipelines : list Pipeline) (size : Z)
    (name : option string) (auto fill lbp : bool) (s0 s : Iter) :
  truthy name = false -> size < 0 ->
  __init__ pipelines size name auto fill lbp = Ok s0 ->
  evolves s0 s ->
  _size s = size
  /\ _check_stop s = (Ok tt, s)
  /\ reset s
     = (Ok tt, with_trace (trace s ++ pipe_events 0 pipelines)
                 (with_counter 0 s)).
Proof.
  intros T Neg H Ev.
  pose proof (init_well_formed _ _ _ _ _ _ _ H) as W0.
  pose proof (init_ok _ _ _ _ _ _ _ H) as (p0 & rest & -> & _ & _ & _ & _ & E).
  cbv zeta in E. rewrite extract_manual in E by exact T.
  injection E as <-.
  destruct (manual_evolves _ s W0 T Ev) as (W & Tn & S).
  pose proof (same_config_evolves _ _ Ev) as (_ & _ & _ & Kf & _ & Kp & _).
  cbn in S, Kf, Kp. rewrite T in Kf.
  destruct (Z.ltb_spec size 0); [| lia]. cbn in Kf.
  split; [exact S |]. split.
  - unfold _check_stop. run_method. rewrite S.
    destruct (Z.ltb_spec 0 size); [lia |]. now rewrite andb_false_r.
  - rewrite reset_at_boundary by (try assumption; right; lia).
    unfold primed, after_reset. rewrite Tn, Kf. cbn [andb].
    now rewrite <- Kp.
Qed.

Lemma unsized_never_stops_witness :
  let s0 := built (__init__ [mk_pipe 2 (mk_meta 1 7 7 0 false false)] (-1)
                     None true true true) blank in
  _size (with_counter 1000 s0) = -1
  /\ _check_stop (with_counter 1000 s0) = (Ok tt, with_counter 1000 s0)
  /\ reset (with_counter 1000 s0)
     = (Ok tt,
        with_trace (trace (with_counter 1000 s0)
                    ++ pipe_events 0 [mk_pipe 2 (mk_meta 1 7 7 0 false false)])
          (with_counter 0 (with_counter 1000 s0))).
Proof.
  cbv zeta.
  apply (unsized_never_stops [mk_pipe 2 (mk_meta 1 7 7 0 false false)] (-1)
           None true true true
           (built (__init__ [mk_pipe 2 (mk_meta 1 7 7 0 false false)] (-1)
                     None true true true) blank)).
  - reflexivity.
  - lia.
  - reflexivity.
  - apply ev_counter, ev_start.
Defined.

(** ** A reset that does not rebase *)

(** X5. At the boundary (or in the unsized mode) of a well-formed object
    that does not both fill and not pad the last batch, [reset] sets the
    counter to 0 and keeps the length of the epoch, the per-worker
    counters and the current shard sizes; in reader-driven mode every
    worker moves to the next shard unless the workers stick to their
    shard. *)
Theorem reset_without_rebase (s : Iter) :
  well_formed s = true ->
  _size s <= _counter s \/ _size s < 0 ->
  _fill_last_batch s && negb (_last_batch_padded s) = false ->
  exists s',
    reset s = (Ok tt, s')
    /\ _counter s' = 0
    /\ _size s' = _size s
    /\ trace s' = trace s ++ pipe_events 0 (_pipes s)
    /\ (truthy (_reader_name s) = false -> _reader s' = _reader s)
    /\ (truthy (_reader_name s) = true ->
        exists r r',
          _reader s = Some r /\ _reader s' = Some r'
          /\ _counter_per_gpu r' = _counter_per_gpu r
          /\ _shard_sizes_per_gpu r' = _shard_sizes_per_gpu r
          /\ _shards_id r'
             = if _is_stick_to_shard r then _shards_id r
               else map (next_shard (_shards_num r)) (_shards_id r)).
Proof.
  intros W B F. exists (primed (after_reset s)).
  split; [now apply reset_at_boundary |].
  unfold after_reset. rewrite F.
  destruct (truthy (_reader_name s)) eqn:T.
  - destruct (well_formed_reader s W T) as (r & R & _).
    unfold rotated. cbn [_reader with_counter]. rewrite R.
    destruct (_is_stick_to_shard r) eqn:St.
    + repeat split; try discriminate. intros _. exists r, r.
      rewrite St. repeat split. exact R.
    + repeat split; try discriminate. intros _. exists r. eexists.
      split; [reflexivity |]. split; [reflexivity |]. rewrite St.
      repeat split.
  - repeat split. discriminate.
Qed.

Lemma reset_without_rebase_witness :
  exists s',
    reset (with_counter 8 it7_padded) = (Ok tt, s')
    /\ _counter s' = 0 /\ _size s' = 7.
Proof.
  destruct (reset_without_rebase (with_counter 8 it7_padded) eq_refl
              ltac:(left; vm_compute; discriminate) eq_refl)
    as (s' & E & C & S & _).
  exists s'. repeat split; assumption.
Defined.

(** ** Priming of the pipelines *)





(** ** The epoch covers the biggest shard *)





(** ** The epoch that a reset starts *)

Lemma check_stop_quiet (s : Iter) :
  _counter s < _size s \/ _size s <= 0 -> _check_stop s = (Ok tt, s).
Proof.
  intros H. unfold _check_stop. run_method.
  destruct (Z.leb_spec (_size s) (_counter s));
    destruct (Z.ltb_spec 0 (_size s)); try reflexivity. lia.
Qed.

(** X14. At the boundary of a well-formed sized object that is not
    reader-driven, or that does not both fill and not pad the last
    batch, [reset] keeps the length of the epoch and leaves the counter
    within it (at the remainder of the old counter by the length in the
    legacy rebase, at 0 otherwise), so that the next [_check_stop] does
    not signal. *)
Theorem reset_starts_unfinished_epoch (s : Iter) :
  well_formed s = true -> 0 < _size s -> _size s <= _counter s ->
  truthy (_reader_name s) = false
  \/ _fill_last_batch s && negb (_last_batch_padded s) = false ->
  exists s',
    reset s = (Ok tt, s')
    /\ _size s' = _size s
    /\ _counter s'
       = (if _fill_last_batch s && negb (_last_batch_padded s)
          then _counter s mod _size s else 0)
    /\ 0 <= _counter s' < _size s'
    /\ _check_stop s' = (Ok tt, s').
Proof.
  intros W S B Mode. exists (primed (after_reset s)).
  split; [apply reset_at_boundary; [exact W | now left] |].
  assert (Sz : _size (primed (after_reset s)) = _size s
               /\ _counter (primed (after_reset s))
                  = (if _fill_last_batch s && negb (_last_batch_padded s)
                     then _counter s mod _size s else 0)).
  { unfold primed, after_reset.
    destruct (truthy (_reader_name s)) eqn:T.
    - destruct Mode as [Mode | Mode]; [discriminate |]. rewrite Mode.
      destruct (well_formed_reader s W T) as (r & R & _).
      destruct (rotated_fields (with_counter 0 s) r R)
        as (_ & _ & _ & _ & _ & _ & _ & _ & _ & _ & Q5 & Q6).
      cbn [_size _counter with_trace]. now rewrite Q5, Q6.
    - destruct (_fill_last_batch s && negb (_last_batch_padded s));
        split; reflexivity. }
  destruct Sz as [Sz C].
  assert (Rg : 0 <= _counter (primed (after_reset s))
               < _size (primed (after_reset s))).
  { rewrite Sz, C.
    destruct (_fill_last_batch s && negb (_last_batch_padded s));
      [apply Z.mod_pos_bound; lia | lia]. }
  split; [exact Sz |]. split; [exact C |]. split; [exact Rg |].
  apply check_stop_quiet. lia.
Qed.

Lemma reset_starts_unfinished_epoch_witness :
  exists s',
    reset (with_counter 8 it7_manual) = (Ok tt, s')
    /\ _size s' = 7 /\ _counter s' = 1
    /\ _check_stop s' = (Ok tt, s').
Proof.
  destruct (reset_starts_unfinished_epoch (with_counter 8 it7_manual)
              eq_refl ltac:(vm_compute; reflexivity)
              ltac:(vm_compute; discriminate) ltac:(left; reflexivity))
    as (s' & E & S & C & _ & K).
  exists s'. repeat split; assumption.
Defined.





